(** * FDB storage engine: a shallow embedding of [fdb_server.py]

    The development models [FDBEngine] (write-back cache over a
    hash-sharded file store) as pure state-passing functions and proves
    properties of [set], [get], [delete], [exists], [flush], [stop] and
    [_evict_lru].

    Modelling choices.
    - The cache [_cache] is a Python [dict]: keys are unique and iteration
      follows insertion order.  [sorted] is stable, so insertion order
      breaks ties between equal ranks; the cache is therefore an
      association list, not an unordered map.
    - The data directory is a finite map from file path to file content.
    - [hashlib.md5(...).hexdigest()] is a library function; it is a
      parameter [md5_hex] of the development.
    - Disk I/O can fail.  Every operation receives an [IO] record that
      tells which of its system calls raise, and the reading of
      [time.time()].
    - The coroutines are modelled sequentially; [flush_with] additionally
      exposes the suspension point of [flush] ([await asyncio.gather]),
      where other coroutines run.
    - [keys], [dbsize] and [FDBProtocol.parse_command] are modelled over
      the library functions they call ([Path.rglob], [fnmatch], [split],
      [upper], [json.loads], [json.dumps], [str]), which are parameters
      as well. *)

From stdpp Require Import gmap strings list fin_maps sorting.
From Stdlib Require Import ZArith Lia.

Local Open Scope Z_scope.
#[local] Set Warnings "-register-all".

(** ** Values, cache entries, configuration *)

(** The payloads the engine stores ([Any] in the source).  [VNone] is
    Python's [None]. *)
Inductive pyvalue : Type :=
  | VNone
  | VBool (b : bool)
  | VInt (z : Z)
  | VStr (s : string)
  | VList (l : list pyvalue)
  | VDict (l : list (string * pyvalue)).

(** [value is not None] *)
Definition is_not_None (v : pyvalue) : bool :=
  match v with VNone => false | _ => true end.

(** [@dataclass class CacheEntry].  [timestamp] is a reading of
    [time.time()]; the engine only compares timestamps. *)
Record CacheEntry : Type := mkEntry {
  value : pyvalue;
  timestamp : Z;
  dirty : bool;
  access_count : nat
}.

(** The entry after [entry.dirty = False]. *)
Definition cleaned (e : CacheEntry) : CacheEntry :=
  mkEntry (value e) (timestamp e) false (access_count e).

(** [@dataclass class FDBConfig], the fields the engine reads. *)
Record FDBConfig : Type := mkConfig {
  data_dir : string;
  cache_size : Z;
  file_extension : string
}.

(** ** Python dictionaries as insertion-ordered association lists *)

Section dict.
Context {A : Type}.

Definition dict := list (string * A).

Fixpoint dict_get (k : string) (d : list (string * A)) : option A :=
  match d with
  | [] => None
  | (k', a) :: d' => if decide (k = k') then Some a else dict_get k d'
  end.

(** [key in d] *)
Definition dict_mem (k : string) (d : list (string * A)) : bool :=
  match dict_get k d with Some _ => true | None => false end.

(** [d[k] = a]: an existing key keeps its position, a new key goes last. *)
Fixpoint dict_set (k : string) (a : A) (d : list (string * A))
  : list (string * A) :=
  match d with
  | [] => [(k, a)]
  | (k', a') :: d' =>
      if decide (k = k') then (k, a) :: d' else (k', a') :: dict_set k a d'
  end.

(** [del d[k]] *)
Fixpoint dict_del (k : string) (d : list (string * A)) : list (string * A) :=
  match d with
  | [] => []
  | (k', a') :: d' =>
      if decide (k = k') then dict_del k d' else (k', a') :: dict_del k d'
  end.

Definition dict_keys (d : list (string * A)) : list string := d.*1.

(** Keys of a dictionary are unique. *)
Definition dict_wf (d : list (string * A)) : Prop := NoDup (dict_keys d).
End dict.

(** ** The file store *)

(** Content of a file of the data directory: the pickled record
    [{'key', 'value', 'timestamp'}], or bytes that [pickle.load] rejects
    (a file truncated by an interrupted write). *)
Inductive dfile : Type :=
  | Pickled (key : string) (v : pyvalue) (ts : Z)
  | Garbage.

(** Outcome of the system calls of [_save_to_disk]: all succeed; [mkdir]
    or [open] raises (the file is untouched); [pickle.dump] raises after
    [open(..., 'wb')] has truncated the file. *)
Inductive write_outcome : Type :=
  | WriteOk
  | WriteFailsEarly
  | WriteFailsLate.

(** Outcome of [shutil.rmtree] followed by [mkdir]: success, or an
    exception that leaves the files selected by the predicate behind. *)
Inductive clear_outcome : Type :=
  | ClearOk
  | ClearFails (survives : string → bool).

(** What the environment does during one engine operation. *)
Record IO : Type := mkIO {
  io_now : Z;                          (* time.time() *)
  io_write : string → write_outcome;   (* per key, in _save_to_disk *)
  io_read_ok : string → bool;          (* open / pickle.load in _load_from_disk *)
  io_unlink_ok : string → bool;        (* unlink in _remove_from_disk *)
  io_clear : clear_outcome             (* in _clear_disk *)
}.

(** An environment in which no system call fails. *)
Definition io_ok (now : Z) : IO :=
  mkIO now (λ _, WriteOk) (λ _, true) (λ _, true) ClearOk.

(** ** The engine *)

(** [FDBEngine] together with the content of its data directory. *)
Record FDB : Type := mkFDB {
  config : FDBConfig;
  _cache : list (string * CacheEntry);
  _running : bool;
  fs : gmap string dfile
}.

Definition with_cache (c : list (string * CacheEntry)) (s : FDB) : FDB :=
  mkFDB (config s) c (_running s) (fs s).

Definition with_fs (d : gmap string dfile) (s : FDB) : FDB :=
  mkFDB (config s) (_cache s) (_running s) d.

(** [len(self._cache)] *)
Definition cache_len (s : FDB) : Z := Z.of_nat (length (_cache s)).

(** Errors raised to the caller. *)
Inductive error : Type := InvalidKey.

Inductive result (A : Type) : Type :=
  | Ok (a : A)
  | Raise (e : error).
Arguments Ok {A} a.
Arguments Raise {A} e.

(** [KeyValidator.validate_key]: [if not v or len(v) > 256: raise]. *)
Definition validate_key (v : string) : result string :=
  if (String.eqb v "" || (256 <? Z.of_nat (String.length v)))%bool
  then Raise InvalidKey else Ok v.

(** The key satisfies the length rule 1..256. *)
Definition valid_key (k : string) : Prop :=
  (1 ≤ String.length k ≤ 256)%nat.

(** Rank used by eviction: [(access_count, timestamp)], compared as
    Python compares tuples. *)
Definition rank_le (a b : string * CacheEntry) : bool :=
  ((access_count a.2 <? access_count b.2)%nat
   || ((access_count a.2 =? access_count b.2)%nat
       && (timestamp a.2 <=? timestamp b.2)))%bool.

(** [sorted(items, key=...)]: a stable sort.  An element is inserted in
    front of the first element that does not rank below it, so elements
    of equal rank keep their relative order. *)
Fixpoint sorted_insert (x : string * CacheEntry)
    (l : list (string * CacheEntry)) : list (string * CacheEntry) :=
  match l with
  | [] => [x]
  | y :: l' => if rank_le x y then x :: y :: l' else y :: sorted_insert x l'
  end.

Fixpoint sorted (l : list (string * CacheEntry)) : list (string * CacheEntry) :=
  match l with
  | [] => []
  | x :: l' => sorted_insert x (sorted l')
  end.

(** Result of a task awaited with [gather(..., return_exceptions=True)]:
    the value the function returned, or the exception it raised. *)
Inductive task_result : Type :=
  | Returned (b : bool)
  | Raised.

(** [not isinstance(result, Exception)] *)
Definition not_exception (r : task_result) : bool :=
  match r with Returned _ => true | Raised => false end.

Section engine.
(** [hashlib.md5(key.encode()).hexdigest()] *)
Variable md5_hex : string → string.

(** [_get_file_path]: [data_dir / key_hash[:2] / (key_hash + ext)]. *)
Definition _get_file_path (cfg : FDBConfig) (key : string) : string :=
  let key_hash := md5_hex key in
  data_dir cfg +:+ "/" +:+ String.substring 0 2 key_hash +:+ "/"
    +:+ key_hash +:+ file_extension cfg.

(** [_validate_key] *)
Definition _validate_key (key : string) : result string := validate_key key.

(** [_save_to_disk]: every exception is caught and turned into [False]. *)
Definition _save_to_disk (io : IO) (cfg : FDBConfig) (key : string)
    (v : pyvalue) (d : gmap string dfile) : bool * gmap string dfile :=
  match io_write io key with
  | WriteOk => (true, <[_get_file_path cfg key := Pickled key v (io_now io)]> d)
  | WriteFailsEarly => (false, d)
  | WriteFailsLate => (false, <[_get_file_path cfg key := Garbage]> d)
  end.

(** [_load_from_disk]: a missing file, an I/O error and an unreadable
    file all yield [None]; otherwise [data.get('value')]. *)
Definition _load_from_disk (io : IO) (cfg : FDBConfig) (key : string)
    (d : gmap string dfile) : pyvalue :=
  match d !! _get_file_path cfg key with
  | None => VNone
  | Some f =>
      if io_read_ok io key then
        match f with Pickled _ v _ => v | Garbage => VNone end
      else VNone
  end.

(** [_remove_from_disk] *)
Definition _remove_from_disk (io : IO) (cfg : FDBConfig) (key : string)
    (d : gmap string dfile) : bool * gmap string dfile :=
  match d !! _get_file_path cfg key with
  | None => (true, d)
  | Some _ =>
      if io_unlink_ok io key then (true, delete (_get_file_path cfg key) d)
      else (false, d)
  end.

(** [_clear_disk] *)
Definition _clear_disk (io : IO) (d : gmap string dfile)
    : bool * gmap string dfile :=
  match io_clear io with
  | ClearOk => (true, ∅)
  | ClearFails survives =>
      (false, filter (λ kv, survives kv.1 = true) d)
  end.

(** The loop of [_evict_lru] over [sorted_items[:to_remove]]: the value
    returned by [_save_to_disk] is dropped, the entry is deleted. *)
Fixpoint evict_loop (io : IO) (items : list (string * CacheEntry))
    (s : FDB) : FDB :=
  match items with
  | [] => s
  | (key, entry) :: rest =>
      let s1 :=
        if dirty entry
        then with_fs (_save_to_disk io (config s) key (value entry) (fs s)).2 s
        else s in
      evict_loop io rest (with_cache (dict_del key (_cache s1)) s1)
  end.

(** [to_remove = len(sorted_items) // 10 + 1] *)
Definition to_remove (n : nat) : nat := (n / 10 + 1)%nat.

(** [sorted_items[:to_remove]] *)
Definition evictees (s : FDB) : list (string * CacheEntry) :=
  take (to_remove (length (_cache s))) (sorted (_cache s)).

(** [_evict_lru] *)
Definition _evict_lru (io : IO) (s : FDB) : FDB :=
  if cache_len s <=? cache_size (config s) then s
  else evict_loop io (evictees s) s.

(** [set] up to and including [self._cache[key] = entry]. *)
Definition set_install (io : IO) (key : string) (v : pyvalue) (s : FDB)
    : FDB :=
  with_cache (dict_set key (mkEntry v (io_now io) true 1) (_cache s)) s.

(** [set] *)
Definition set (io : IO) (key : string) (v : pyvalue) (s : FDB)
    : result (bool * FDB) :=
  match _validate_key key with
  | Raise e => Raise e
  | Ok key =>
      let s1 := set_install io key v s in
      let s2 :=
        if cache_size (config s1) <? cache_len s1 then _evict_lru io s1
        else s1 in
      Ok (true, s2)
  end.

(** [get].  The result is the stored value, or [None]. *)
Definition get (io : IO) (key : string) (s : FDB) : result (pyvalue * FDB) :=
  match _validate_key key with
  | Raise e => Raise e
  | Ok key =>
      match dict_get key (_cache s) with
      | Some entry =>
          let entry' := mkEntry (value entry) (timestamp entry) (dirty entry)
                                (access_count entry + 1) in
          Ok (value entry, with_cache (dict_set key entry' (_cache s)) s)
      | None =>
          let v := _load_from_disk io (config s) key (fs s) in
          if is_not_None v
          then Ok (v, with_cache
                        (dict_set key (mkEntry v (io_now io) false 1)
                                  (_cache s)) s)
          else Ok (v, s)
      end
  end.

(** [delete] *)
Definition delete (io : IO) (key : string) (s : FDB) : result (bool * FDB) :=
  match _validate_key key with
  | Raise e => Raise e
  | Ok key =>
      let s1 :=
        if dict_mem key (_cache s)
        then with_cache (dict_del key (_cache s)) s else s in
      let '(b, d) := _remove_from_disk io (config s1) key (fs s1) in
      Ok (b, with_fs d s1)
  end.

(** [exists] *)
Definition exists_ (key : string) (s : FDB) : result (bool * FDB) :=
  match _validate_key key with
  | Raise e => Raise e
  | Ok key =>
      if dict_mem key (_cache s) then Ok (true, s)
      else Ok (bool_decide (is_Some (fs s !! _get_file_path (config s) key)), s)
  end.

(** [flushdb] *)
Definition flushdb (io : IO) (s : FDB) : bool * FDB :=
  let s1 := with_cache [] s in
  let '(b, d) := _clear_disk io (fs s1) in
  (b, with_fs d s1).

(** [flush], first critical section: the dirty entries. *)
Definition dirty_entries (s : FDB) : list (string * CacheEntry) :=
  filter (λ kv, dirty kv.2 = true) (_cache s).

(** [flush], the writes handed to the executor, in snapshot order;
    returns the gathered results and the file store. *)
Fixpoint flush_writes (io : IO) (cfg : FDBConfig)
    (snap : list (string * CacheEntry)) (d : gmap string dfile)
    : list task_result * gmap string dfile :=
  match snap with
  | [] => ([], d)
  | (key, entry) :: rest =>
      let '(b, d1) := _save_to_disk io cfg key (value entry) d in
      let '(rs, d2) := flush_writes io cfg rest d1 in
      (Returned b :: rs, d2)
  end.

(** [self._cache[key].dirty = False] *)
Definition clear_dirty (key : string) (c : list (string * CacheEntry))
    : list (string * CacheEntry) :=
  match dict_get key c with
  | Some e => dict_set key (cleaned e) c
  | None => c
  end.

(** [flush], second critical section: the loop over
    [zip(dirty_entries.keys(), results)]. *)
Fixpoint flush_commit (keys_results : list (string * task_result))
    (c : list (string * CacheEntry)) (dirty_count : nat)
    : nat * list (string * CacheEntry) :=
  match keys_results with
  | [] => (dirty_count, c)
  | (key, r) :: rest =>
      if (dict_mem key c && not_exception r)%bool
      then flush_commit rest (clear_dirty key c) (dirty_count + 1)
      else flush_commit rest c dirty_count
  end.

(** [flush], with the operations [during] of other coroutines that run
    while [flush] is suspended in [await asyncio.gather(...)]. *)
Definition flush_with (during : FDB → FDB) (io : IO) (s : FDB) : nat * FDB :=
  let snap := dirty_entries s in
  match snap with
  | [] => (0%nat, s)
  | _ =>
      let '(results, d) := flush_writes io (config s) snap (fs s) in
      let s1 := during (with_fs d s) in
      let '(n, c) := flush_commit (zip (dict_keys snap) results) (_cache s1) 0 in
      (n, with_cache c s1)
  end.

(** [flush] when no other coroutine runs meanwhile. *)
Definition flush (io : IO) (s : FDB) : nat * FDB := flush_with id io s.

(** [stop]: the final [flush], after [_running] is cleared. *)
Definition stop (io : IO) (s : FDB) : FDB :=
  (flush io (mkFDB (config s) (_cache s) false (fs s))).2.

(** [FDBEngine(config)] on a data directory holding [d]. *)
Definition create_engine (cfg : FDBConfig) (d : gmap string dfile) : FDB :=
  mkFDB cfg [] true d.

(** ** Sequences of operations *)

Inductive op : Type :=
  | OpSet (key : string) (v : pyvalue)
  | OpGet (key : string)
  | OpDelete (key : string)
  | OpExists (key : string)
  | OpFlushdb
  | OpFlush.

(** State after an operation; an operation that raises leaves it as is. *)
Definition step (s : FDB) (c : IO * op) : FDB :=
  match c.2 with
  | OpSet k v => match set c.1 k v s with Ok (_, s') => s' | Raise _ => s end
  | OpGet k => match get c.1 k s with Ok (_, s') => s' | Raise _ => s end
  | OpDelete k => match delete c.1 k s with Ok (_, s') => s' | Raise _ => s end
  | OpExists k => match exists_ k s with Ok (_, s') => s' | Raise _ => s end
  | OpFlushdb => (flushdb c.1 s).2
  | OpFlush => (flush c.1 s).2
  end.

Definition run (tr : list (IO * op)) (s : FDB) : FDB := foldl step s tr.

End engine.

(** ** Sample configurations and environments *)

(** A stand-in for the hash in examples: the key itself. *)
Definition sample_hash (k : string) : string := k.

Definition sample_config (n : Z) : FDBConfig := mkConfig "db" n ".fdb".

(** An environment in which the writes of the keys in [bad] fail before
    the file is opened, and nothing else fails. *)
Definition io_write_fails (now : Z) (bad : list string) : IO :=
  mkIO now (λ k, if bool_decide (k ∈ bad) then WriteFailsEarly else WriteOk)
       (λ _, true) (λ _, true) ClearOk.

(** An environment in which the reads of the keys in [bad] fail. *)
Definition io_read_fails (now : Z) (bad : list string) : IO :=
  mkIO now (λ _, WriteOk) (λ k, negb (bool_decide (k ∈ bad))) (λ _, true)
       ClearOk.

(** A cache of [n] freshly set entries with keys [key_of 0 .. key_of (n-1)]
    written at times [0 .. n-1]. *)
Definition key_of (i : nat) : string := String (Ascii.ascii_of_nat (97 + i)) "".

Definition fresh_entries (n : nat) : list (string * CacheEntry) :=
  (λ i, (key_of i, mkEntry (VInt (Z.of_nat i)) (Z.of_nat i) true 1)) <$> seq 0 n.

(** ** Vocabulary of the statements *)

(** [a] does not rank above [b]. *)
Definition rank_rel (a b : string * CacheEntry) : Prop := rank_le a b = true.

(** [ceil(n / 10)] *)
Definition ceil_div10 (n : nat) : nat := ((n + 9) / 10)%nat.

(** The entries of [c] whose keys are not in [ks]. *)
Definition without_keys (ks : list string) (c : list (string * CacheEntry))
    : list (string * CacheEntry) :=
  filter (λ p, p.1 ∉ ks) c.

(** [is_set o]: the operation is a [set]. *)
Definition is_set (o : op) : bool :=
  match o with OpSet _ _ => true | _ => false end.

(** A trace that consists of [set] calls only. *)
Definition only_sets (tr : list (IO * op)) : bool :=
  forallb (λ c, is_set c.2) tr.

(** [n] successful [set] calls on distinct keys at times [0 .. n-1]. *)
Definition sample_sets (n : nat) : list (IO * op) :=
  (λ i, (io_ok (Z.of_nat i), OpSet (key_of i) (VInt (Z.of_nat i)))) <$> seq 0 n.

(** The engine in the middle of the tenth [set] of [sample_sets 10] with
    [cache_size = 9]: the entry is installed, eviction has not run yet. *)
Definition ten_entries : FDB :=
  set_install (io_ok 9) (key_of 9) (VInt 9)
    (run sample_hash (sample_sets 9) (create_engine (sample_config 9) ∅)).

(** A trace of [get] calls, one per element of [ks]. *)
Definition gets (ks : list (IO * string)) : list (IO * op) :=
  (λ c, (c.1, OpGet c.2)) <$> ks.

(** The entry a cache-miss [get] installs for the value it loaded. *)
Definition warmed (md5_hex : string → string) (cfg : FDBConfig)
    (d : gmap string dfile) (c : IO * string) : string * CacheEntry :=
  (c.2, mkEntry (_load_from_disk md5_hex c.1 cfg c.2 d) (io_now c.1) false 1).

(** A data directory holding the records of [a], [b] and [c]. *)
Definition three_files : gmap string dfile :=
  <[_get_file_path sample_hash (sample_config 1) "a" := Pickled "a" (VInt 1) 0]>
  (<[_get_file_path sample_hash (sample_config 1) "b" := Pickled "b" (VInt 2) 0]>
  (<[_get_file_path sample_hash (sample_config 1) "c" := Pickled "c" (VInt 3) 0]>
   ∅)).

(** What [_save_to_disk] returns for [key] in the environment [io]. *)
Definition write_returns (io : IO) (key : string) : bool :=
  match io_write io key with WriteOk => true | _ => false end.

(** The cache after [self._cache[key].dirty = False] for the keys [ks]. *)
Definition clear_dirty_all (ks : list string) (c : list (string * CacheEntry))
    : list (string * CacheEntry) :=
  foldl (λ c key, clear_dirty key c) c ks.

Section vocabulary.
Variable md5_hex : string → string.

(** The data directory holds a readable record of [k] with value [v]. *)
Definition holds_record (cfg : FDBConfig) (d : gmap string dfile)
    (k : string) (v : pyvalue) : Prop :=
  ∃ ts, d !! _get_file_path md5_hex cfg k = Some (Pickled k v ts).

(** The value [v] of [k] is safe: it is cached, and on disk as well if
    the cached entry is clean, or it is on disk. *)
Definition durable (k : string) (v : pyvalue) (s : FDB) : Prop :=
  match dict_get k (_cache s) with
  | Some e =>
      value e = v
      ∧ (dirty e = false → holds_record (config s) (fs s) k v)
  | None => holds_record (config s) (fs s) k v
  end.

(** [k'] is [k] or is stored in another file than [k]. *)
Definition alien (cfg : FDBConfig) (k k' : string) : Prop :=
  k' ≠ k → _get_file_path md5_hex cfg k' ≠ _get_file_path md5_hex cfg k.

Definition op_key (o : op) : option string :=
  match o with
  | OpSet k _ | OpGet k | OpDelete k | OpExists k => Some k
  | OpFlushdb | OpFlush => None
  end.

(** The operation is no [delete] of [k], no overwrite of [k] and no
    [flushdb]. *)
Definition keeps (k : string) (o : op) : bool :=
  match o with
  | OpSet k' _ | OpDelete k' => negb (bool_decide (k' = k))
  | OpFlushdb => false
  | OpGet _ | OpExists _ | OpFlush => true
  end.

(** A step that leaves the value of [k] alone: it keeps [k], the writes
    of [k] it issues succeed, and its key is not stored in the file of
    [k]. *)
Definition quiet (cfg : FDBConfig) (k : string) (c : IO * op) : Prop :=
  keeps k c.2 = true
  ∧ io_write c.1 k = WriteOk
  ∧ match op_key c.2 with Some k' => alien cfg k k' | None => True end.

(** The invariant that keeps the value [v] of [k] safe. *)
Definition safe (k : string) (v : pyvalue) (s : FDB) : Prop :=
  dict_wf (_cache s)
  ∧ durable k v s
  ∧ Forall (alien (config s) k) (dict_keys (_cache s)).


End vocabulary.

(** An engine with [cache_size = 1] whose only entry [a] is dirty. *)
Definition one_dirty_a : FDB :=
  run sample_hash [(io_ok 1, OpSet "a" (VInt 1))]
      (create_engine (sample_config 1) ∅).

(** The same engine after [a] was read once more: [a] has access count 2. *)
Definition hot_a : FDB :=
  run sample_hash [(io_ok 2, OpGet "a")] one_dirty_a.

(** [one_dirty_a] after [set("b", 2)], during which the eviction write of
    [a] fails. *)
Definition after_failed_eviction : FDB :=
  run sample_hash [(io_write_fails 2 ["a"], OpSet "b" (VInt 2))] one_dirty_a.

(** A [set("a", 2)] by another coroutine. *)
Definition overwrite_a (s : FDB) : FDB :=
  step sample_hash s (io_ok 3, OpSet "a" (VInt 2)).

(** An engine that holds [a] in the cache and on disk. *)
Definition flushed_a : FDB :=
  run sample_hash [(io_ok 2, OpFlush)] one_dirty_a.

(** [is_get o]: the operation is a [get]. *)
Definition is_get (o : op) : bool :=
  match o with OpGet _ => true | _ => false end.

(** A trace without [get] calls. *)
Definition no_gets (tr : list (IO * op)) : bool :=
  forallb (λ c, negb (is_get c.2)) tr.

(** [q] ranks strictly below [p]. *)
Definition ranks_below (p q : string * CacheEntry) : Prop :=
  rank_le p q = false.

(** The engine in the middle of [set("b", 2)] on [hot_a]: [b] is
    installed, eviction has not run yet. *)
Definition hot_a_with_b : FDB :=
  set_install (io_ok 3) "b" (VInt 2) hot_a.

(** ** Key listing *)

Section listing.
(** [hashlib.md5(key.encode()).hexdigest()] *)
Variable md5_hex : string → string.
(** [rglob_match pattern path]: [Path.rglob(pattern)] yields the file. *)
Variable rglob_match : string → string → bool.
(** [fnmatch.fnmatch(name, pattern)] *)
Variable fnmatch : string → string → bool.

(** [_scan_disk_keys]: the keys of the records that can be read from the
    files [rglob] yields.  [readable path] tells whether [open] and
    [pickle.load] succeed on the file; a file that fails is skipped, and
    so is a file that does not hold a record. *)
Definition _scan_disk_keys (readable : string → bool) (cfg : FDBConfig)
    (d : gmap string dfile) : list string :=
  omap (λ pf : string * dfile,
          if (rglob_match ("*" +:+ file_extension cfg) pf.1 && readable pf.1)%bool
          then match pf.2 with Pickled k _ _ => Some k | Garbage => None end
          else None)
       (map_to_list d).

(** [keys(pattern)]: the set of cached keys and scanned keys, as a list
    in the order the set yields them; filtered unless the pattern is
    ["*"]. *)
Definition keys (readable : string → bool) (pattern : string) (s : FDB)
    : list string :=
  let ks : gset string :=
    list_to_set (dict_keys (_cache s))
    ∪ list_to_set (_scan_disk_keys readable (config s) (fs s)) in
  if String.eqb pattern "*" then elements ks
  else filter (λ k, fnmatch k pattern = true) (elements ks).

(** [dbsize] *)
Definition dbsize (readable : string → bool) (s : FDB) : nat :=
  length (keys readable "*" s).

(** Every record of the directory is stored in the file its key hashes
    to. *)
Definition store_ok (cfg : FDBConfig) (d : gmap string dfile) : Prop :=
  ∀ p k v ts, d !! p = Some (Pickled k v ts) → p = _get_file_path md5_hex cfg k.

End listing.

(** Stand-ins for the matching functions in examples: [rglob] yields
    every file, [fnmatch] compares for equality. *)
Definition sample_rglob (pattern path : string) : bool := true.
Definition sample_fnmatch (name pattern : string) : bool :=
  String.eqb name pattern.

(** ** The line protocol *)

(** What [json.loads] does with a text: it returns a value, raises
    [JSONDecodeError], or raises another exception (a [ValueError] for an
    integer with too many digits, a [RecursionError]), whose text is
    given. *)
Inductive loads_outcome : Type :=
  | Parsed (v : pyvalue)
  | NotJson
  | LoadsRaises (msg : string).

Section protocol.
(** [hashlib.md5(key.encode()).hexdigest()] *)
Variable md5_hex : string → string.
(** [Path.rglob] and [fnmatch.fnmatch], as for [keys]. *)
Variable rglob_match : string → string → bool.
Variable fnmatch : string → string → bool.
(** [data.strip().split()] *)
Variable split_ws : string → list string.
(** [str.upper] *)
Variable upper : string → string.
(** [json.loads] *)
Variable json_loads : string → loads_outcome.
(** [json.dumps] *)
Variable json_dumps : pyvalue → string.
(** [str(value)] *)
Variable str_value : pyvalue → string.
(** [str(e)] for the exception the engine raises. *)
Variable exn_text : error → string.

(** The answer of [GET] for the value the engine returned. *)
Definition get_response (v : pyvalue) : string :=
  match v with
  | VNone => "NULL"
  | VList _ | VDict _ => json_dumps v
  | VBool _ | VInt _ | VStr _ => str_value v
  end.

(** The value [SET] stores for the rest of the line: the parsed JSON, or
    the text itself when it is no JSON. *)
Definition set_value (text : string) : pyvalue :=
  match json_loads text with Parsed v => v | _ => VStr text end.

(** [f"ERROR: Unknown command '{cmd}'"] *)
Definition unknown_command (cmd : string) : string :=
  "ERROR: Unknown command '" +:+ cmd +:+ "'".

(** [FDBProtocol.parse_command]: the response and the engine after the
    command.  An exception, of the engine or of [json.loads] (other than
    the [JSONDecodeError] that [SET] catches), becomes an [ERROR:]
    line. *)
Definition parse_command (io : IO) (readable : string → bool)
    (data : string) (s : FDB) : string * FDB :=
  let parts := split_ws data in
  match parts with
  | [] => ("ERROR: Empty command", s)
  | c :: _ =>
      let cmd := upper c in
      let n := length parts in
      if (String.eqb cmd "SET" && (3 <=? n)%nat)%bool then
        let key := nth 1 parts "" in
        let text := String.concat " " (drop 2 parts) in
        match json_loads text with
        | LoadsRaises msg => ("ERROR: " +:+ msg, s)
        | Parsed _ | NotJson =>
            match set md5_hex io key (set_value text) s with
            | Ok (success, s') => (if success then "OK" else "ERROR", s')
            | Raise e => ("ERROR: " +:+ exn_text e, s)
            end
        end
      else if (String.eqb cmd "GET" && (n =? 2)%nat)%bool then
        match get md5_hex io (nth 1 parts "") s with
        | Ok (v, s') => (get_response v, s')
        | Raise e => ("ERROR: " +:+ exn_text e, s)
        end
      else if (String.eqb cmd "DEL" && (n =? 2)%nat)%bool then
        match delete md5_hex io (nth 1 parts "") s with
        | Ok (success, s') => (if success then "1" else "0", s')
        | Raise e => ("ERROR: " +:+ exn_text e, s)
        end
      else if (String.eqb cmd "EXISTS" && (n =? 2)%nat)%bool then
        match exists_ md5_hex (nth 1 parts "") s with
        | Ok (b, s') => (if b then "1" else "0", s')
        | Raise e => ("ERROR: " +:+ exn_text e, s)
        end
      else if String.eqb cmd "KEYS" then
        let pattern := if (1 <? n)%nat then nth 1 parts "" else "*" in
        (json_dumps
           (VList (VStr <$> keys rglob_match fnmatch readable pattern s)), s)
      else if String.eqb cmd "DBSIZE" then
        (str_value (VInt (Z.of_nat (dbsize rglob_match fnmatch readable s))), s)
      else if String.eqb cmd "FLUSHDB" then
        let '(success, s') := flushdb io s in
        (if success then "OK" else "ERROR", s')
      else if String.eqb cmd "PING" then ("PONG", s)
      else if String.eqb cmd "INFO" then
        ("cache_entries:" +:+ str_value (VInt (cache_len s)), s)
      else (unknown_command cmd, s)
  end.

End protocol.

(** Stand-ins for the library functions in examples: split at single
    spaces, leave the case alone, accept only [null] as JSON and raise
    on one text. *)
Fixpoint sample_split_go (cur s : string) : list string :=
  match s with
  | EmptyString => if String.eqb cur "" then [] else [cur]
  | String c s' =>
      if Ascii.eqb c (Ascii.ascii_of_nat 32)
      then (if String.eqb cur "" then [] else [cur]) ++ sample_split_go "" s'
      else sample_split_go (cur +:+ String c "") s'
  end.

Definition sample_split (s : string) : list string := sample_split_go "" s.
Definition sample_upper (s : string) : string := s.
Definition sample_loads (s : string) : loads_outcome :=
  if String.eqb s "null" then Parsed VNone
  else if String.eqb s "deep" then LoadsRaises "maximum recursion depth exceeded"
  else NotJson.
Definition sample_dumps (v : pyvalue) : string := "json".
Definition sample_str (v : pyvalue) : string :=
  match v with VStr s => s | _ => "value" end.
Definition sample_exn_text (e : error) : string := "Key must be 1-256 characters".

(** [parse_command] with the stand-ins. *)
Definition sample_parse : IO → (string → bool) → string → FDB → string * FDB :=
  parse_command sample_hash sample_rglob sample_fnmatch sample_split
                sample_upper sample_loads sample_dumps sample_str
                sample_exn_text.

(** A key of 257 characters. *)
Fixpoint repeat_char (n : nat) (c : Ascii.ascii) : string :=
  match n with O => EmptyString | S n' => String c (repeat_char n' c) end.

Definition long_key : string := repeat_char 257 (Ascii.ascii_of_nat 107).

(** A directory in which the file of [a] holds a record written for the
    key [z]. *)
Definition foreign_record : gmap string dfile :=
  {[ _get_file_path sample_hash (sample_config 1) "a" := Pickled "z" (VInt 7) 0 ]}.

(** A directory in which the file of [a] holds no readable record. *)
Definition garbage_file : gmap string dfile :=
  {[ _get_file_path sample_hash (sample_config 1) "a" := Garbage ]}.

(** Nine keys [a .. i] set at times 0 .. 8 with [cache_size = 9], then
    read once each: [b .. i] at times 9 .. 16 and [a] last, at time 17;
    then the tenth key [j] installed at time 18, eviction not yet run. *)
Definition read_back_entries : FDB :=
  set_install (io_ok 18) (key_of 9) (VInt 9)
    (run sample_hash
       (sample_sets 9
        ++ gets ((λ i, (io_ok (Z.of_nat (8 + i)), key_of i)) <$> seq 1 8)
        ++ gets [(io_ok 17, key_of 0)])
       (create_engine (sample_config 9) ∅)).


(** An engine with [cache_size = 2] that holds [a], clean and on disk,
    and [b], dirty. *)
Definition a_clean_b_dirty : FDB :=
  run sample_hash
      [(io_ok 1, OpSet "a" (VInt 1)); (io_ok 2, OpFlush);
       (io_ok 3, OpSet "b" (VInt 2))]
      (create_engine (sample_config 2) ∅).



(** * Properties *)

(** ** Dictionaries *)

Section dict_facts.
Context {A : Type}.
Implicit Types (d : list (string * A)) (k : string) (a : A).

Lemma dict_get_set_eq k a d : dict_get k (dict_set k a d) = Some a.
Proof.
  induction d as [|[k' a'] d IH]; simpl.
  - by rewrite decide_True.
  - destruct (decide (k = k')) as [->|Hne]; simpl.
    + by rewrite decide_True.
    + by rewrite decide_False.
Qed.

Lemma dict_get_set_ne k k' a d :
  k ≠ k' → dict_get k' (dict_set k a d) = dict_get k' d.
Proof.
  intros Hne. induction d as [|[k2 a2] d IH]; simpl.
  - by rewrite decide_False.
  - destruct (decide (k = k2)) as [->|Hne2]; simpl.
    + by rewrite !decide_False.
    + by rewrite IH.
Qed.

Lemma dict_get_del_eq k d : dict_get k (dict_del k d) = None.
Proof.
  induction d as [|[k' a'] d IH]; simpl; [done|].
  destruct (decide (k = k')) as [->|Hne]; simpl; [done|].
  by rewrite decide_False.
Qed.

Lemma dict_get_del_ne k k' d :
  k ≠ k' → dict_get k' (dict_del k d) = dict_get k' d.
Proof.
  intros Hne. induction d as [|[k2 a2] d IH]; simpl; [done|].
  destruct (decide (k = k2)) as [->|Hne2]; simpl.
  - by rewrite decide_False.
  - by rewrite IH.
Qed.

Lemma dict_get_None k d : dict_get k d = None ↔ k ∉ dict_keys d.
Proof.
  unfold dict_keys. induction d as [|[k' a'] d IH]; simpl.
  - split; [intros _; apply not_elem_of_nil | done].
  - rewrite not_elem_of_cons. destruct (decide (k = k')) as [->|Hne].
    + split; [done | intros [? _]; done].
    + rewrite IH. tauto.
Qed.

Lemma dict_get_is_Some k d : is_Some (dict_get k d) ↔ k ∈ dict_keys d.
Proof.
  destruct (dict_get k d) as [a|] eqn:E.
  - split; [intros _ | by eauto].
    destruct (decide (k ∈ dict_keys d)) as [|Hn]; [done|].
    apply dict_get_None in Hn. congruence.
  - split; [by intros [? ?] | intros Hin].
    apply dict_get_None in E. done.
Qed.

Lemma dict_mem_true k d : dict_mem k d = true ↔ k ∈ dict_keys d.
Proof.
  unfold dict_mem. rewrite <- dict_get_is_Some.
  destruct (dict_get k d); split; intros H; try done; try (by eauto);
    by destruct H.
Qed.

Lemma dict_mem_false k d : dict_mem k d = false ↔ k ∉ dict_keys d.
Proof.
  rewrite <- dict_mem_true. destruct (dict_mem k d); split; done.
Qed.

Lemma dict_get_Some_elem k a d : dict_get k d = Some a → (k, a) ∈ d.
Proof.
  induction d as [|[k' a'] d IH]; simpl; [done|].
  destruct (decide (k = k')) as [->|Hne].
  - intros [= ->]. apply elem_of_cons; by left.
  - intros H. apply elem_of_cons; right; auto.
Qed.

Lemma dict_elem_get k a d : dict_wf d → (k, a) ∈ d → dict_get k d = Some a.
Proof.
  unfold dict_wf, dict_keys. induction d as [|[k' a'] d IH]; simpl.
  - intros _ H. by apply elem_of_nil in H.
  - intros Hnd Hin. apply NoDup_cons in Hnd as [Hk' Hnd].
    apply elem_of_cons in Hin as [[= -> ->]|Hin].
    + by rewrite decide_True.
    + destruct (decide (k = k')) as [->|Hne]; [|by auto].
      exfalso. apply Hk'. apply list_elem_of_fmap. by exists (k', a).
Qed.

Lemma dict_keys_set_in k a d :
  k ∈ dict_keys d → dict_keys (dict_set k a d) = dict_keys d.
Proof.
  unfold dict_keys. induction d as [|[k' a'] d IH]; simpl.
  - intros H. by apply elem_of_nil in H.
  - intros Hin. destruct (decide (k = k')) as [->|Hne]; simpl; [done|].
    apply elem_of_cons in Hin as [?|Hin]; [done|]. f_equal. by apply IH.
Qed.

Lemma dict_keys_set_notin k a d :
  k ∉ dict_keys d → dict_keys (dict_set k a d) = dict_keys d ++ [k].
Proof.
  unfold dict_keys. induction d as [|[k' a'] d IH]; simpl; [done|].
  intros Hin. apply not_elem_of_cons in Hin as [Hne Hin].
  rewrite decide_False by done. simpl. f_equal. by apply IH.
Qed.

Lemma elem_of_dict_keys_set k k' a d :
  k' ∈ dict_keys (dict_set k a d) ↔ k' = k ∨ k' ∈ dict_keys d.
Proof.
  destruct (decide (k ∈ dict_keys d)) as [Hin|Hin].
  - rewrite dict_keys_set_in by done. split; [auto | intros [->|?]; auto].
  - rewrite dict_keys_set_notin by done. rewrite elem_of_app, list_elem_of_singleton.
    tauto.
Qed.

Lemma length_dict_set_in k a d :
  k ∈ dict_keys d → length (dict_set k a d) = length d.
Proof.
  intros H. apply dict_keys_set_in with (a := a) in H.
  apply (f_equal length) in H. unfold dict_keys in H.
  by rewrite !length_fmap in H.
Qed.

Lemma length_dict_set_notin k a d :
  k ∉ dict_keys d → length (dict_set k a d) = S (length d).
Proof.
  intros H. apply dict_keys_set_notin with (a := a) in H.
  apply (f_equal length) in H. unfold dict_keys in H.
  rewrite length_app, !length_fmap in H. simpl in H. lia.
Qed.

Lemma length_dict_set_le k a d :
  (length d ≤ length (dict_set k a d) ≤ S (length d))%nat.
Proof.
  destruct (decide (k ∈ dict_keys d)).
  - rewrite length_dict_set_in by done. lia.
  - rewrite length_dict_set_notin by done. lia.
Qed.

Lemma dict_wf_set k a d : dict_wf d → dict_wf (dict_set k a d).
Proof.
  unfold dict_wf. intros Hwf. destruct (decide (k ∈ dict_keys d)) as [Hin|Hin].
  - by rewrite dict_keys_set_in.
  - rewrite dict_keys_set_notin by done. apply NoDup_app. split; [done|].
    split; [|apply NoDup_singleton].
    intros x Hx Hx'. apply list_elem_of_singleton in Hx'. by subst.
Qed.

Lemma dict_del_filter k d : dict_del k d = filter (λ p, p.1 ≠ k) d.
Proof.
  induction d as [|[k' a'] d IH]; simpl; [done|].
  destruct (decide (k = k')) as [->|Hne].
  - rewrite filter_cons_False by (simpl; auto). done.
  - rewrite filter_cons_True by (simpl; auto). by rewrite IH.
Qed.

Lemma elem_of_dict_del k p d : p ∈ dict_del k d ↔ p ∈ d ∧ p.1 ≠ k.
Proof. rewrite dict_del_filter, list_elem_of_filter. tauto. Qed.

Lemma elem_of_dict_keys_del k k' d :
  k' ∈ dict_keys (dict_del k d) ↔ k' ∈ dict_keys d ∧ k' ≠ k.
Proof.
  unfold dict_keys. rewrite !list_elem_of_fmap. split.
  - intros [p [-> Hp]]. apply elem_of_dict_del in Hp as [Hp Hne]. eauto.
  - intros [[p [-> Hp]] Hne]. exists p. split; [done|].
    apply elem_of_dict_del. done.
Qed.

Lemma dict_del_notin k d : k ∉ dict_keys d → dict_del k d = d.
Proof.
  unfold dict_keys. induction d as [|[k' a'] d IH]; simpl; [done|].
  intros Hin. apply not_elem_of_cons in Hin as [Hne Hin].
  rewrite decide_False by done. by rewrite IH.
Qed.

Lemma dict_wf_del k d : dict_wf d → dict_wf (dict_del k d).
Proof.
  unfold dict_wf, dict_keys. induction d as [|[k' a'] d IH]; simpl; [done|].
  intros Hnd. apply NoDup_cons in Hnd as [Hk' Hnd].
  destruct (decide (k = k')) as [->|Hne]; [by auto|].
  simpl. apply NoDup_cons. split; [|by auto].
  intros Hin. apply (elem_of_dict_keys_del k k' d) in Hin as [Hin _]. done.
Qed.

Lemma length_dict_del_in k d :
  dict_wf d → k ∈ dict_keys d → S (length (dict_del k d)) = length d.
Proof.
  unfold dict_wf, dict_keys. induction d as [|[k' a'] d IH]; simpl.
  - intros _ H. by apply elem_of_nil in H.
  - intros Hnd Hin. apply NoDup_cons in Hnd as [Hk' Hnd].
    destruct (decide (k = k')) as [->|Hne].
    + by rewrite dict_del_notin.
    + apply elem_of_cons in Hin as [?|Hin]; [done|]. simpl. by rewrite IH.
Qed.

Lemma length_dict_del_le k d : (length (dict_del k d) ≤ length d)%nat.
Proof. rewrite dict_del_filter. apply length_filter. Qed.

End dict_facts.

(** ** Ranking and sorting *)

Lemma rank_le_total a b : rank_le a b = false → rank_le b a = true.
Proof.
  unfold rank_le. intros H.
  apply orb_false_iff in H as [H1 H2]. apply Nat.ltb_ge in H1.
  destruct (access_count a.2 =? access_count b.2)%nat eqn:E.
  - apply Nat.eqb_eq in E. simpl in H2. apply Z.leb_gt in H2.
    apply orb_true_iff. right. apply andb_true_iff. split.
    + apply Nat.eqb_eq. lia.
    + apply Z.leb_le. lia.
  - apply Nat.eqb_neq in E. apply orb_true_iff. left. apply Nat.ltb_lt. lia.
Qed.

Lemma rank_rel_spec a b :
  rank_rel a b ↔
  (access_count a.2 < access_count b.2)%nat
  ∨ (access_count a.2 = access_count b.2 ∧ timestamp a.2 ≤ timestamp b.2).
Proof.
  unfold rank_rel, rank_le.
  rewrite orb_true_iff, andb_true_iff, Nat.ltb_lt, Nat.eqb_eq, Z.leb_le. done.
Qed.

#[local] Instance rank_rel_trans : Transitive rank_rel.
Proof. intros a b c. rewrite !rank_rel_spec. lia. Qed.

#[local] Instance rank_rel_refl : Reflexive rank_rel.
Proof. intros a. rewrite rank_rel_spec. lia. Qed.

Lemma sorted_insert_perm x l : sorted_insert x l ≡ₚ x :: l.
Proof.
  induction l as [|y l IH]; simpl; [done|].
  destruct (rank_le x y); [done|]. rewrite IH. apply Permutation_swap.
Qed.

Lemma sorted_perm l : sorted l ≡ₚ l.
Proof.
  induction l as [|x l IH]; simpl; [done|].
  by rewrite sorted_insert_perm, IH.
Qed.

Lemma sorted_insert_sorted x l :
  StronglySorted rank_rel l → StronglySorted rank_rel (sorted_insert x l).
Proof.
  induction l as [|y l IH]; simpl; intros Hs.
  - repeat constructor.
  - destruct (rank_le x y) eqn:E.
    + apply StronglySorted_cons. split; [|done].
      apply StronglySorted_cons in Hs as [Hy _].
      constructor; [done|].
      eapply Forall_impl; [exact Hy|]. intros z Hz. by etrans.
    + apply StronglySorted_cons in Hs as [Hy Hs].
      apply StronglySorted_cons. split; [|by auto].
      rewrite sorted_insert_perm. constructor; [|done].
      by apply rank_le_total.
Qed.

Lemma sorted_sorted l : StronglySorted rank_rel (sorted l).
Proof.
  induction l as [|x l IH]; simpl; [constructor|].
  by apply sorted_insert_sorted.
Qed.

Lemma length_sorted l : length (sorted l) = length l.
Proof. by rewrite sorted_perm. Qed.

(** Stability: a list that is already in rank order is left as it is. *)
Lemma sorted_stable l : StronglySorted rank_rel l → sorted l = l.
Proof.
  induction l as [|x l IH]; simpl; [done|].
  intros [Hx Hs]%StronglySorted_cons. rewrite IH by done.
  destruct l as [|y l]; simpl; [done|].
  apply Forall_cons in Hx as [Hxy _]. unfold rank_rel in Hxy. by rewrite Hxy.
Qed.

(** ** Eviction *)

Lemma without_keys_nil c : without_keys [] c = c.
Proof.
  unfold without_keys. induction c as [|p c IH]; [done|].
  rewrite filter_cons_True by apply not_elem_of_nil. by rewrite IH.
Qed.

Lemma without_keys_cons k ks c :
  without_keys (k :: ks) c = without_keys ks (dict_del k c).
Proof.
  unfold without_keys. rewrite dict_del_filter, list_filter_filter.
  apply list_filter_iff. intros p. rewrite not_elem_of_cons. tauto.
Qed.

Lemma length_without_keys ks c :
  dict_wf c → NoDup ks → (∀ k, k ∈ ks → k ∈ dict_keys c) →
  (length (without_keys ks c) + length ks = length c)%nat.
Proof.
  revert c. induction ks as [|k ks IH]; intros c Hwf Hnd Hsub.
  - rewrite without_keys_nil. simpl. lia.
  - apply NoDup_cons in Hnd as [Hk Hnd]. rewrite without_keys_cons. simpl.
    assert (k ∈ dict_keys c) as Hkc by (apply Hsub, elem_of_cons; by left).
    pose proof (length_dict_del_in k c Hwf Hkc) as Hlen.
    specialize (IH (dict_del k c) (dict_wf_del k c Hwf) Hnd).
    rewrite <- IH in Hlen; [lia|].
    intros k' Hk'. apply elem_of_dict_keys_del. split.
    + apply Hsub, elem_of_cons. by right.
    + intros ->. done.
Qed.

Lemma without_keys_wf ks c : dict_wf c → dict_wf (without_keys ks c).
Proof.
  unfold dict_wf, dict_keys, without_keys. intros Hwf.
  eapply sublist_NoDup; [exact Hwf|]. apply fmap_sublist, sublist_filter.
Qed.

Lemma dict_get_without_keys_notin ks k c :
  k ∉ ks → dict_get k (without_keys ks c) = dict_get k c.
Proof.
  revert c. induction ks as [|k' ks IH]; intros c Hk.
  - by rewrite without_keys_nil.
  - apply not_elem_of_cons in Hk as [Hne Hk].
    rewrite without_keys_cons, IH by done. by apply dict_get_del_ne.
Qed.

Lemma dict_get_without_keys_in ks k c :
  k ∈ ks → dict_get k (without_keys ks c) = None.
Proof.
  intros Hk. apply dict_get_None. unfold dict_keys, without_keys.
  intros [p [-> Hp]]%list_elem_of_fmap.
  apply list_elem_of_filter in Hp as [Hp _]. done.
Qed.

Section eviction_facts.
Variable md5_hex : string → string.
Implicit Types (s : FDB) (io : IO).

Lemma evict_loop_config io items s :
  config (evict_loop md5_hex io items s) = config s.
Proof.
  revert s. induction items as [|[k e] items IH]; intros s; simpl; [done|].
  rewrite IH. by destruct (dirty e).
Qed.

Lemma evict_loop_running io items s :
  _running (evict_loop md5_hex io items s) = _running s.
Proof.
  revert s. induction items as [|[k e] items IH]; intros s; simpl; [done|].
  rewrite IH. by destruct (dirty e).
Qed.

(** The loop deletes exactly the keys it is given. *)
Lemma evict_loop_cache io items s :
  _cache (evict_loop md5_hex io items s) = without_keys items.*1 (_cache s).
Proof.
  revert s. induction items as [|[k e] items IH]; intros s; simpl.
  - by rewrite without_keys_nil.
  - rewrite IH, without_keys_cons. by destruct (dirty e).
Qed.

Lemma evictees_keys_NoDup s :
  dict_wf (_cache s) → NoDup (evictees s).*1.
Proof.
  unfold dict_wf, dict_keys, evictees. intros Hwf.
  rewrite fmap_take. eapply sublist_NoDup; [|apply sublist_take].
  by rewrite sorted_perm.
Qed.

Lemma evictees_elem_of s p : p ∈ evictees s → p ∈ _cache s.
Proof.
  unfold evictees. intros Hp.
  rewrite <- (sorted_perm (_cache s)).
  eapply elem_of_sublist; [exact Hp | apply sublist_take].
Qed.

Lemma length_evictees s :
  length (evictees s)
  = Nat.min (to_remove (length (_cache s))) (length (_cache s)).
Proof. unfold evictees. by rewrite length_take, length_sorted. Qed.

Lemma _evict_lru_config io s : config (_evict_lru md5_hex io s) = config s.
Proof.
  unfold _evict_lru. destruct (_ <=? _); [done|]. apply evict_loop_config.
Qed.

Lemma _evict_lru_cache io s :
  cache_size (config s) < cache_len s →
  _cache (_evict_lru md5_hex io s) = without_keys (evictees s).*1 (_cache s).
Proof.
  intros Hlt. unfold _evict_lru.
  destruct (cache_len s <=? cache_size (config s)) eqn:E.
  - apply Z.leb_le in E. lia.
  - apply evict_loop_cache.
Qed.

Lemma _evict_lru_wf io s :
  dict_wf (_cache s) → dict_wf (_cache (_evict_lru md5_hex io s)).
Proof.
  intros Hwf. unfold _evict_lru. destruct (_ <=? _); [done|].
  rewrite evict_loop_cache. by apply without_keys_wf.
Qed.

Lemma length_evict_lru io s :
  dict_wf (_cache s) → cache_size (config s) < cache_len s →
  (length (_cache (_evict_lru md5_hex io s)) + length (evictees s)
   = length (_cache s))%nat.
Proof.
  intros Hwf Hlt. rewrite _evict_lru_cache by done.
  rewrite <- (length_fmap fst (evictees s)).
  apply length_without_keys; [done | by apply evictees_keys_NoDup |].
  intros k [p [-> Hp]]%list_elem_of_fmap.
  apply list_elem_of_fmap. exists p. split; [done|]. by apply evictees_elem_of.
Qed.

End eviction_facts.

(** ** Claims on eviction and on the cache bound *)

Section eviction_claims.
Variable md5_hex : string → string.
Implicit Types (s : FDB) (io : IO).

Lemma to_remove_ceil n :
  ((n mod 10 ≠ 0 → to_remove n = ceil_div10 n)
   ∧ (n mod 10 = 0 → to_remove n = S (ceil_div10 n)))%nat.
Proof.
  unfold to_remove, ceil_div10.
  pose proof (Nat.div_mod_eq n 10) as Hn.
  pose proof (Nat.mod_upper_bound n 10 ltac:(lia)) as Hlt.
  pose proof (Nat.div_mod_eq (n + 9) 10) as Hm.
  pose proof (Nat.mod_upper_bound (n + 9) 10 ltac:(lia)) as Hlt'.
  split; intros H0; lia.
Qed.

(** C4 (as amended).  An eviction pass over an index of [n] entries that
    exceeds a non-negative [cache_size] ranks the entries ascending by
    [(access_count, timestamp)] and removes exactly the first
    [n // 10 + 1] of that ranking: the survivors are the other entries,
    in their order, and none of them ranks below an evicted entry.
    [n // 10 + 1] is [ceil(n / 10)] unless [n] is a multiple of ten,
    where it is one more.  The timestamp is the time the entry was
    installed: [set] stamps the entry it installs, and a cache-hit [get]
    adds one to the access count and leaves the timestamp as it is. *)
Theorem evict_lru_removes_lowest_ranked io s :
  dict_wf (_cache s) →
  0 ≤ cache_size (config s) →
  cache_size (config s) < cache_len s →
  let n := length (_cache s) in
  sorted (_cache s) ≡ₚ _cache s
  ∧ StronglySorted rank_rel (sorted (_cache s))
  ∧ evictees s = take (n / 10 + 1) (sorted (_cache s))
  ∧ length (evictees s) = (n / 10 + 1)%nat
  ∧ _cache (_evict_lru md5_hex io s) = without_keys (evictees s).*1 (_cache s)
  ∧ (length (_cache (_evict_lru md5_hex io s)) + (n / 10 + 1) = n)%nat
  ∧ (∀ p q, p ∈ evictees s → q ∈ _cache (_evict_lru md5_hex io s) →
            rank_rel p q)
  ∧ ((n mod 10 ≠ 0 → (n / 10 + 1)%nat = ceil_div10 n)
     ∧ (n mod 10 = 0 → (n / 10 + 1)%nat = S (ceil_div10 n)))%nat
  ∧ (∀ io' k v,
       dict_get k (_cache (set_install io' k v s))
       = Some (mkEntry v (io_now io') true 1))
  ∧ (∀ io' k e r s',
       dict_get k (_cache s) = Some e →
       get md5_hex io' k s = Ok (r, s') →
       dict_get k (_cache s')
       = Some (mkEntry (value e) (timestamp e) (dirty e) (access_count e + 1))).
Proof.
  intros Hwf Hcs Hlt n.
  assert (1 ≤ n)%nat as Hn by (unfold cache_len in Hlt; subst n; lia).
  assert (length (evictees s) = (n / 10 + 1)%nat) as Hlen.
  { rewrite length_evictees. unfold to_remove. fold n.
    pose proof (Nat.div_mod_eq n 10). lia. }
  split; [apply sorted_perm|]. split; [apply sorted_sorted|].
  split; [done|]. split; [done|].
  split; [by apply _evict_lru_cache|].
  split.
  { pose proof (length_evict_lru md5_hex io s Hwf Hlt) as H. fold n in H. lia. }
  split; [|split; [apply to_remove_ceil|split]]; cycle 1.
  { intros io' k v. apply dict_get_set_eq. }
  { intros io' k e r s' He Hget. unfold get, _validate_key in Hget.
    destruct (validate_key k) as [k0|] eqn:Hk; [|done].
    assert (k0 = k) as ->.
    { unfold validate_key in Hk. destruct (_ || _)%bool; congruence. }
    rewrite He in Hget. injection Hget as _ <-. simpl.
    apply dict_get_set_eq. }
  intros p q Hp Hq. rewrite _evict_lru_cache in Hq by done.
  apply list_elem_of_filter in Hq as [Hq1 Hq2].
  pose proof (sorted_sorted (_cache s)) as Hs.
  rewrite <- (take_drop (to_remove n) (sorted (_cache s))) in Hs.
  eapply StronglySorted_app_1_elem_of; [exact Hs | exact Hp |].
  assert (q ∈ sorted (_cache s)) as Hqs by (by rewrite sorted_perm).
  rewrite <- (take_drop (to_remove n) (sorted (_cache s))) in Hqs.
  apply elem_of_app in Hqs as [Hqs|Hqs]; [|done].
  exfalso. apply Hq1. apply list_elem_of_fmap. by exists q.
Qed.

(** One [set] keeps the bound. *)
Lemma set_install_wf io k v s :
  dict_wf (_cache s) → dict_wf (_cache (set_install io k v s)).
Proof. intros Hwf. simpl. by apply dict_wf_set. Qed.

Lemma set_install_len io k v s :
  cache_len s ≤ cache_len (set_install io k v s) ≤ cache_len s + 1.
Proof.
  unfold cache_len. simpl.
  pose proof (length_dict_set_le k (mkEntry v (io_now io) true 1) (_cache s)).
  lia.
Qed.

Lemma evict_lru_shrinks io s :
  dict_wf (_cache s) → 0 ≤ cache_size (config s) →
  cache_size (config s) < cache_len s →
  cache_len (_evict_lru md5_hex io s) < cache_len s.
Proof.
  intros Hwf Hcs Hlt.
  pose proof (length_evict_lru md5_hex io s Hwf Hlt) as Hlen.
  rewrite length_evictees in Hlen. unfold to_remove in Hlen.
  unfold cache_len in *. lia.
Qed.

Lemma set_Ok io k v s :
  validate_key k = Ok k →
  set md5_hex io k v s
  = Ok (true,
        if cache_size (config s) <? cache_len (set_install io k v s)
        then _evict_lru md5_hex io (set_install io k v s)
        else set_install io k v s).
Proof. intros Hk. unfold set, _validate_key. by rewrite Hk. Qed.

Lemma validate_key_cases k :
  validate_key k = Ok k ∨ validate_key k = Raise InvalidKey.
Proof. unfold validate_key. destruct (_ || _)%bool; auto. Qed.

Lemma set_bound io k v s b s' :
  dict_wf (_cache s) → 0 ≤ cache_size (config s) →
  cache_len s ≤ cache_size (config s) →
  set md5_hex io k v s = Ok (b, s') →
  dict_wf (_cache s') ∧ config s' = config s
  ∧ cache_len s' ≤ cache_size (config s).
Proof.
  intros Hwf Hcs Hle Hset.
  destruct (validate_key_cases k) as [Hk|Hk].
  - rewrite (set_Ok io k v s Hk) in Hset. injection Hset as <- <-.
    pose proof (set_install_len io k v s) as Hlen.
    pose proof (set_install_wf io k v s Hwf) as Hwf1.
    destruct (cache_size (config s) <? cache_len (set_install io k v s)) eqn:E.
    + apply Z.ltb_lt in E.
      pose proof (evict_lru_shrinks io (set_install io k v s) Hwf1 Hcs E).
      split; [by apply _evict_lru_wf|]. split; [by rewrite _evict_lru_config|].
      lia.
    + apply Z.ltb_ge in E. done.
  - unfold set, _validate_key in Hset. by rewrite Hk in Hset.
Qed.

Lemma run_sets_bound tr s :
  only_sets tr = true →
  dict_wf (_cache s) → 0 ≤ cache_size (config s) →
  cache_len s ≤ cache_size (config s) →
  dict_wf (_cache (run md5_hex tr s))
  ∧ config (run md5_hex tr s) = config s
  ∧ cache_len (run md5_hex tr s) ≤ cache_size (config s).
Proof.
  revert s. induction tr as [|[io o] tr IH]; intros s Htr Hwf Hcs Hle.
  - done.
  - simpl in Htr. apply andb_true_iff in Htr as [Ho Htr].
    destruct o as [k v| | | | |]; try done.
    change (run md5_hex ((io, OpSet k v) :: tr) s)
      with (run md5_hex tr (step md5_hex s (io, OpSet k v))).
    unfold step; simpl.
    destruct (set md5_hex io k v s) as [[b s']|e] eqn:E.
    + destruct (set_bound io k v s b s' Hwf Hcs Hle E) as (Hwf' & Hc & Hle').
      rewrite <- Hc in *. by apply IH.
    + by apply IH.
Qed.

(** C5.  On an engine created with a non-negative [cache_size], after any
    sequence of [set] calls the index holds at most [cache_size] entries;
    during a further [set] it holds at most [cache_size + 1] entries once
    the entry is installed, and if that is more than [cache_size] the
    call runs the eviction pass, which removes at least one entry, before
    it returns: the index holds at most [cache_size] entries on return. *)
Theorem set_keeps_cache_bound cfg d tr io k v :
  0 ≤ cache_size cfg →
  only_sets tr = true →
  let s := run md5_hex tr (create_engine cfg d) in
  cache_len s ≤ cache_size cfg
  ∧ cache_len (set_install io k v s) ≤ cache_size cfg + 1
  ∧ (cache_size cfg < cache_len (set_install io k v s) →
     validate_key k = Ok k →
     set md5_hex io k v s
       = Ok (true, _evict_lru md5_hex io (set_install io k v s))
     ∧ cache_len (_evict_lru md5_hex io (set_install io k v s))
       < cache_len (set_install io k v s))
  ∧ (∀ b s', set md5_hex io k v s = Ok (b, s') →
             cache_len s' ≤ cache_size cfg).
Proof.
  intros Hcs Htr s.
  assert (dict_wf (_cache (create_engine cfg d))) as Hwf0 by apply NoDup_nil_2.
  destruct (run_sets_bound tr (create_engine cfg d) Htr Hwf0 Hcs)
    as (Hwf & Hc & Hle); [unfold cache_len; simpl; lia|].
  fold s in Hwf, Hc, Hle. change (config (create_engine cfg d)) with cfg in *.
  pose proof (set_install_len io k v s) as Hlen.
  split; [done|]. split; [lia|]. split.
  - intros Hlt Hk. rewrite (set_Ok io k v s Hk).
    assert (config s = cfg) as Hcfg by done.
    rewrite <- Hcfg in Hlt.
    split.
    + apply Z.ltb_lt in Hlt. by rewrite Hlt.
    + apply evict_lru_shrinks;
        [by apply set_install_wf | simpl; rewrite Hcfg; lia | exact Hlt].
  - intros b s' Hset.
    pose proof (set_bound io k v s b s' Hwf) as H.
    assert (config s = cfg) as Hcfg by done.
    rewrite Hcfg in H. by destruct (H Hcs Hle Hset) as (_ & _ & ?).
Qed.

End eviction_claims.

(** Witness of C4: ten entries with [cache_size = 9]. *)
Lemma evict_lru_removes_lowest_ranked_witness :
  length (_cache (_evict_lru sample_hash (io_ok 10) ten_entries)) = 8%nat.
Proof.
  assert (dict_wf (_cache ten_entries)) as Hwf.
  { unfold dict_wf. apply (bool_decide_unpack _). by vm_compute. }
  destruct (evict_lru_removes_lowest_ranked sample_hash (io_ok 10) ten_entries
              Hwf ltac:(by vm_compute) ltac:(by vm_compute))
    as (_ & _ & _ & _ & _ & Hlen & _).
  vm_compute in Hlen. vm_compute. lia.
Defined.

(** C4 as stated fails.  An eviction pass over ten entries removes two of
    them, while [ceil(10 / 10)] is one.  And the timestamp that ranks the
    entries is not the time of the last access: in [read_back_entries]
    every key [a .. i] was read once, [b] first (at time 9) and [a] last
    (at time 17); the pass evicts the new key [j] and then [a], the key
    accessed most recently among the others, because it was installed
    first. *)
Lemma evict_lru_ceil_counterexample :
  length (_cache ten_entries) = 10%nat
  ∧ cache_size (config ten_entries) < cache_len ten_entries
  ∧ ceil_div10 (length (_cache ten_entries)) = 1%nat
  ∧ (length (_cache ten_entries)
     - length (_cache (_evict_lru sample_hash (io_ok 10) ten_entries)) = 2)%nat
  ∧ dict_keys (_cache (_evict_lru sample_hash (io_ok 10) ten_entries))
    = ["c"; "d"; "e"; "f"; "g"; "h"; "i"; "j"]%string
  ∧ cache_size (config read_back_entries) < cache_len read_back_entries
  ∧ dict_get "a" (_cache read_back_entries) = Some (mkEntry (VInt 0) 0 true 2)
  ∧ dict_get "b" (_cache read_back_entries) = Some (mkEntry (VInt 1) 1 true 2)
  ∧ dict_keys (evictees read_back_entries) = ["j"; "a"]%string
  ∧ dict_keys (_cache (_evict_lru sample_hash (io_ok 18) read_back_entries))
    = ["b"; "c"; "d"; "e"; "f"; "g"; "h"; "i"]%string.
Proof. by vm_compute. Qed.

(** Witness of C5: three [set] calls with [cache_size = 2]. *)
Lemma set_keeps_cache_bound_witness :
  cache_len (run sample_hash (sample_sets 3) (create_engine (sample_config 2) ∅))
  ≤ 2.
Proof.
  destruct (set_keeps_cache_bound sample_hash (sample_config 2) ∅
              (sample_sets 3) (io_ok 3) "z" VNone
              ltac:(by vm_compute) ltac:(reflexivity)) as [H _].
  exact H.
Defined.

(** ** Key validation *)

Lemma validate_key_valid k : valid_key k ↔ validate_key k = Ok k.
Proof.
  unfold valid_key, validate_key. destruct k as [|a k]; simpl.
  - split; [lia | done].
  - destruct (256 <? Z.of_nat (S (String.length k))) eqn:E.
    + apply Z.ltb_lt in E. split; [lia | done].
    + apply Z.ltb_ge in E. split; [done | lia].
Qed.

Lemma validate_key_invalid k :
  k = "" ∨ (256 < String.length k)%nat → validate_key k = Raise InvalidKey.
Proof.
  unfold validate_key. intros [->|Hlen]; [done|].
  assert ((256 <? Z.of_nat (String.length k)) = true) as ->
    by (apply Z.ltb_lt; lia).
  by rewrite orb_true_r.
Qed.

Section facade_claims.
Variable md5_hex : string → string.
Implicit Types (s : FDB) (io : IO).

(** C8.  For a key that is empty or longer than 256 characters, [set],
    [get], [delete] and [exists] raise the invalid-key error, and the
    engine (cache index and data directory) is as before the call. *)
Theorem invalid_key_rejected io k v s :
  k = "" ∨ (256 < String.length k)%nat →
  set md5_hex io k v s = Raise InvalidKey
  ∧ get md5_hex io k s = Raise InvalidKey
  ∧ delete md5_hex io k s = Raise InvalidKey
  ∧ exists_ md5_hex k s = Raise InvalidKey
  ∧ step md5_hex s (io, OpSet k v) = s
  ∧ step md5_hex s (io, OpGet k) = s
  ∧ step md5_hex s (io, OpDelete k) = s
  ∧ step md5_hex s (io, OpExists k) = s.
Proof.
  intros Hk. apply validate_key_invalid in Hk.
  unfold step, set, get, delete, exists_, _validate_key; simpl.
  rewrite Hk. repeat split.
Qed.

Lemma dict_set_fresh {A} k (a : A) d :
  dict_get k d = None → dict_set k a d = d ++ [(k, a)].
Proof.
  induction d as [|[k' a'] d IH]; simpl; [done|].
  destruct (decide (k = k')); [done|]. intros H. by rewrite IH.
Qed.

(** A cache-miss [get] that finds a value. *)
Lemma get_miss_found io k s :
  validate_key k = Ok k →
  dict_get k (_cache s) = None →
  is_not_None (_load_from_disk md5_hex io (config s) k (fs s)) = true →
  get md5_hex io k s
  = Ok (_load_from_disk md5_hex io (config s) k (fs s),
        with_cache (_cache s ++ [warmed md5_hex (config s) (fs s) (io, k)]) s).
Proof.
  intros Hk Hc Hv. unfold get, _validate_key. rewrite Hk, Hc, Hv.
  by rewrite dict_set_fresh.
Qed.

Lemma run_gets_miss ks s :
  Forall (λ c, validate_key c.2 = Ok c.2) ks →
  NoDup ks.*2 →
  Forall (λ c, dict_get c.2 (_cache s) = None) ks →
  Forall (λ c, is_not_None (_load_from_disk md5_hex c.1 (config s) c.2 (fs s))
               = true) ks →
  run md5_hex (gets ks) s
  = with_cache (_cache s ++ (warmed md5_hex (config s) (fs s) <$> ks)) s.
Proof.
  revert s. induction ks as [|[io k] ks IH]; intros s Hv Hnd Hc Hl.
  - simpl. rewrite app_nil_r. by destruct s.
  - apply Forall_cons in Hv as [Hk Hv]. apply Forall_cons in Hc as [Hck Hc].
    apply Forall_cons in Hl as [Hlk Hl]. simpl in Hnd, Hk, Hck, Hlk.
    apply NoDup_cons in Hnd as [Hkn Hnd].
    change (run md5_hex (gets ((io, k) :: ks)) s)
      with (run md5_hex (gets ks) (step md5_hex s (io, OpGet k))).
    unfold step; simpl. rewrite (get_miss_found io k s Hk Hck Hlk).
    rewrite IH; try done.
    + unfold with_cache; simpl. by rewrite <- app_assoc.
    + simpl. apply Forall_forall. intros [io' k'] Hin.
      rewrite Forall_forall in Hc. specialize (Hc _ Hin). simpl in *.
      assert (k ≠ k') as Hne.
      { intros ->. apply Hkn. apply list_elem_of_fmap. by exists (io', k'). }
      clear -Hc Hne. induction (_cache s) as [|[k2 a2] c IHc]; simpl in *.
      * by rewrite decide_False.
      * destruct (decide (k' = k2)); [done|]. by apply IHc.
Qed.

(** C9.  A [get] of a key that is not cached and whose disk record holds
    a value other than [None] appends a clean entry ([dirty = False],
    [access_count = 1]) to the index and runs no eviction, whatever
    [cache_size] is.  Hence a sequence of such [get]s on distinct keys
    grows the index by one entry per call and leaves it above
    [cache_size] as soon as enough keys were read; only a later [set]
    that finds the index over the limit runs the eviction pass. *)
Theorem get_miss_ignores_cache_size ks s io' k' v' :
  Forall (λ c, validate_key c.2 = Ok c.2) ks →
  NoDup ks.*2 →
  Forall (λ c, dict_get c.2 (_cache s) = None) ks →
  Forall (λ c, is_not_None (_load_from_disk md5_hex c.1 (config s) c.2 (fs s))
               = true) ks →
  let s' := run md5_hex (gets ks) s in
  _cache s' = _cache s ++ (warmed md5_hex (config s) (fs s) <$> ks)
  ∧ Forall (λ p, dirty p.2 = false ∧ access_count p.2 = 1%nat)
           (warmed md5_hex (config s) (fs s) <$> ks)
  ∧ fs s' = fs s
  ∧ cache_len s' = cache_len s + Z.of_nat (length ks)
  ∧ (cache_size (config s) < cache_len s + Z.of_nat (length ks) →
     cache_size (config s') < cache_len s'
     ∧ (validate_key k' = Ok k' →
        set md5_hex io' k' v' s'
        = Ok (true, _evict_lru md5_hex io' (set_install io' k' v' s')))).
Proof.
  intros Hv Hnd Hc Hl s'. subst s'. rewrite run_gets_miss by done.
  split; [done|]. split.
  { apply Forall_fmap, Forall_forall. by intros [io k] _. }
  split; [done|].
  assert (cache_len
            (with_cache (_cache s ++ (warmed md5_hex (config s) (fs s) <$> ks)) s)
          = cache_len s + Z.of_nat (length ks)) as Hlen.
  { unfold cache_len; simpl. rewrite length_app, length_fmap. lia. }
  split; [done|]. intros Hlt. split; [simpl config; lia|].
  intros Hk'. rewrite set_Ok by done.
  match goal with |- context [set_install ?a ?b ?c ?d] =>
    pose proof (set_install_len a b c d) as Hle end.
  match goal with |- context [?a <? ?b] =>
    assert ((a <? b) = true) as -> by (apply Z.ltb_lt; simpl config; lia) end.
  done.
Qed.


End facade_claims.

(** Witness of C8: the empty key. *)
Lemma invalid_key_rejected_witness :
  set sample_hash (io_ok 0) "" (VInt 1) (create_engine (sample_config 2) ∅)
  = Raise InvalidKey.
Proof.
  destruct (invalid_key_rejected sample_hash (io_ok 0) "" (VInt 1)
              (create_engine (sample_config 2) ∅)) as [H _].
  - left. reflexivity.
  - exact H.
Defined.

(** Witness of C9: three records on disk, [cache_size = 1]. *)
Lemma get_miss_ignores_cache_size_witness :
  cache_len
    (run sample_hash (gets [(io_ok 1, "a"); (io_ok 2, "b"); (io_ok 3, "c")])
         (create_engine (sample_config 1) three_files))
  = 3.
Proof.
  destruct (get_miss_ignores_cache_size sample_hash
              [(io_ok 1, "a"); (io_ok 2, "b"); (io_ok 3, "c")]%string
              (create_engine (sample_config 1) three_files)
              (io_ok 4) "d" VNone) as (_ & _ & _ & H & _).
  - repeat constructor.
  - apply (bool_decide_unpack _). by vm_compute.
  - repeat constructor.
  - repeat constructor.
  - exact H.
Defined.



(** ** The file store *)

Section disk_facts.
Variable md5_hex : string → string.
Implicit Types (s : FDB) (io : IO) (d : gmap string dfile).

Lemma save_other io cfg k k' v' d :
  _get_file_path md5_hex cfg k' ≠ _get_file_path md5_hex cfg k →
  (_save_to_disk md5_hex io cfg k' v' d).2 !! _get_file_path md5_hex cfg k
  = d !! _get_file_path md5_hex cfg k.
Proof.
  intros Hne. unfold _save_to_disk.
  destruct (io_write io k'); simpl; by rewrite ?lookup_insert_ne.
Qed.

Lemma save_ok io cfg k v d :
  io_write io k = WriteOk →
  (_save_to_disk md5_hex io cfg k v d).1 = true
  ∧ holds_record md5_hex cfg (_save_to_disk md5_hex io cfg k v d).2 k v.
Proof.
  intros Hw. unfold _save_to_disk, holds_record. rewrite Hw. simpl.
  split; [done|]. exists (io_now io). apply lookup_insert_eq.
Qed.

Lemma save_failed io cfg k v d :
  io_write io k ≠ WriteOk →
  (_save_to_disk md5_hex io cfg k v d).1 = false
  ∧ ¬ holds_record md5_hex cfg (_save_to_disk md5_hex io cfg k v d).2 k v
  ∨ (_save_to_disk md5_hex io cfg k v d).2 = d.
Proof.
  intros Hw. unfold _save_to_disk, holds_record.
  destruct (io_write io k); simpl; [done | by right | left].
  split; [done|]. intros [ts H]. by rewrite lookup_insert_eq in H.
Qed.

Lemma holds_record_other cfg d d' k v :
  d' !! _get_file_path md5_hex cfg k = d !! _get_file_path md5_hex cfg k →
  holds_record md5_hex cfg d k v → holds_record md5_hex cfg d' k v.
Proof. unfold holds_record. intros ->. done. Qed.

Lemma load_holds io cfg d k v :
  holds_record md5_hex cfg d k v → io_read_ok io k = true →
  _load_from_disk md5_hex io cfg k d = v.
Proof.
  intros [ts H] Hr. unfold _load_from_disk. by rewrite H, Hr.
Qed.

Lemma load_holds_cases io cfg d k v :
  holds_record md5_hex cfg d k v →
  _load_from_disk md5_hex io cfg k d = v
  ∨ _load_from_disk md5_hex io cfg k d = VNone.
Proof.
  intros [ts H]. unfold _load_from_disk. rewrite H.
  destruct (io_read_ok io k); auto.
Qed.

Lemma remove_other io cfg k k' d :
  _get_file_path md5_hex cfg k' ≠ _get_file_path md5_hex cfg k →
  (_remove_from_disk md5_hex io cfg k' d).2 !! _get_file_path md5_hex cfg k
  = d !! _get_file_path md5_hex cfg k.
Proof.
  intros Hne. unfold _remove_from_disk.
  destruct (d !! _get_file_path md5_hex cfg k'); [|done].
  destruct (io_unlink_ok io k'); simpl; [|done]. by rewrite lookup_delete_ne.
Qed.

End disk_facts.

(** ** Durability of one key *)

Lemma elem_of_dirty_entries (p : string * CacheEntry) (s : FDB) :
  p ∈ dirty_entries s ↔ p ∈ _cache s ∧ dirty p.2 = true.
Proof. unfold dirty_entries. rewrite list_elem_of_filter. tauto. Qed.

Section durability_facts.
Variable md5_hex : string → string.
Implicit Types (s : FDB) (io : IO) (d : gmap string dfile).

#[local] Abbreviation path := (_get_file_path md5_hex).
#[local] Abbreviation holds := (holds_record md5_hex).

Lemma durable_ext k v s s' :
  dict_get k (_cache s') = dict_get k (_cache s) →
  config s' = config s →
  fs s' !! path (config s) k = fs s !! path (config s) k →
  durable md5_hex k v s → durable md5_hex k v s'.
Proof.
  unfold durable, holds_record. intros -> -> ->. done.
Qed.

Lemma durable_of_holds k v s :
  holds (config s) (fs s) k v →
  (∀ e, dict_get k (_cache s) = Some e → value e = v) →
  durable md5_hex k v s.
Proof.
  unfold durable. intros Hh He. destruct (dict_get k (_cache s)); auto.
Qed.

Lemma evict_loop_durable io items s k v :
  io_write io k = WriteOk →
  durable md5_hex k v s →
  (∀ e, (k, e) ∈ items →
        value e = v ∧ (dirty e = false → holds (config s) (fs s) k v)) →
  Forall (alien md5_hex (config s) k) items.*1 →
  durable md5_hex k v (evict_loop md5_hex io items s).
Proof.
  intros Hw. revert s.
  induction items as [|[k' e'] items IH]; intros s Hd Hit Hal; [done|].
  apply Forall_cons in Hal as [Hal' Hal]. simpl.
  set (s1 := if dirty e'
             then with_fs (_save_to_disk md5_hex io (config s) k' (value e')
                                         (fs s)).2 s
             else s).
  assert (config s1 = config s) as Hc1 by (subst s1; by destruct (dirty e')).
  assert (_cache s1 = _cache s) as Hk1 by (subst s1; by destruct (dirty e')).
  destruct (decide (k' = k)) as [->|Hne].
  - destruct (Hit e') as [Hv Hclean]; [apply elem_of_cons; by left|].
    assert (holds (config s) (fs s1) k v) as Hh.
    { subst s1. destruct (dirty e'); [|by auto]. simpl. rewrite <- Hv.
      by apply save_ok. }
    apply IH.
    + apply durable_of_holds; simpl; [by rewrite Hc1|].
      intros e. by rewrite dict_get_del_eq.
    + simpl. rewrite Hc1. intros e He. split; [|done].
      apply Hit. apply elem_of_cons. by right.
    + simpl. by rewrite Hc1.
  - assert (fs s1 !! path (config s) k = fs s !! path (config s) k) as Hfs.
    { subst s1. destruct (dirty e'); [|done]. simpl. apply save_other.
      by apply Hal'. }
    apply IH.
    + eapply durable_ext; [| |exact Hfs|exact Hd]; simpl; [|done].
      rewrite Hk1. apply dict_get_del_ne. done.
    + simpl. rewrite Hc1. intros e He.
      destruct (Hit e) as [Hv Hclean]; [apply elem_of_cons; by right|].
      split; [done|]. intros Hcl. eapply holds_record_other; [exact Hfs|auto].
    + simpl. by rewrite Hc1.
Qed.

Lemma without_keys_subseteq ks c k :
  k ∈ dict_keys (without_keys ks c) → k ∈ dict_keys c.
Proof.
  unfold dict_keys, without_keys. intros [p [-> Hp]]%list_elem_of_fmap.
  apply list_elem_of_filter in Hp as [_ Hp].
  apply list_elem_of_fmap. by exists p.
Qed.

Lemma _evict_lru_keys io s k :
  k ∈ dict_keys (_cache (_evict_lru md5_hex io s)) → k ∈ dict_keys (_cache s).
Proof.
  unfold _evict_lru. destruct (_ <=? _); [done|].
  rewrite evict_loop_cache. apply without_keys_subseteq.
Qed.

Lemma evict_lru_safe io s k v :
  io_write io k = WriteOk →
  safe md5_hex k v s → safe md5_hex k v (_evict_lru md5_hex io s).
Proof.
  intros Hw (Hwf & Hd & Hal). split; [by apply _evict_lru_wf|]. split.
  - unfold _evict_lru. destruct (_ <=? _); [done|].
    apply evict_loop_durable; [done | done | |].
    + intros e He. apply evictees_elem_of in He.
      apply (dict_elem_get _ _ _ Hwf) in He. unfold durable in Hd.
      by rewrite He in Hd.
    + apply Forall_forall. intros k' [p [-> Hp]]%list_elem_of_fmap.
      rewrite Forall_forall in Hal. apply Hal.
      apply list_elem_of_fmap. exists p. split; [done|].
      by apply evictees_elem_of.
  - rewrite _evict_lru_config. apply Forall_forall. intros k' Hk'.
    rewrite Forall_forall in Hal. apply Hal. by eapply _evict_lru_keys.
Qed.

Lemma set_install_safe_new io k v s :
  dict_wf (_cache s) →
  Forall (alien md5_hex (config s) k) (dict_keys (_cache s)) →
  safe md5_hex k v (set_install io k v s).
Proof.
  intros Hwf Hal. split; [by apply set_install_wf|]. split.
  - unfold durable. simpl. by rewrite dict_get_set_eq.
  - simpl. apply Forall_forall. intros k' Hk'.
    apply elem_of_dict_keys_set in Hk' as [->|Hk']; [by intros ?|].
    rewrite Forall_forall in Hal. by apply Hal.
Qed.

Lemma set_install_safe_other io k k' v v' s :
  k' ≠ k → alien md5_hex (config s) k k' →
  safe md5_hex k v s → safe md5_hex k v (set_install io k' v' s).
Proof.
  intros Hne Hal' (Hwf & Hd & Hal). split; [by apply set_install_wf|]. split.
  - eapply durable_ext; [| | |exact Hd]; simpl; [|done|done].
    by apply dict_get_set_ne.
  - simpl. apply Forall_forall. intros k2 Hk2.
    apply elem_of_dict_keys_set in Hk2 as [->|Hk2]; [done|].
    rewrite Forall_forall in Hal. by apply Hal.
Qed.

(** [set(k, v)] makes [v] safe. *)
Lemma set_establishes_safe io k v s b s1 :
  dict_wf (_cache s) →
  Forall (alien md5_hex (config s) k) (dict_keys (_cache s)) →
  io_write io k = WriteOk →
  set md5_hex io k v s = Ok (b, s1) →
  safe md5_hex k v s1 ∧ config s1 = config s.
Proof.
  intros Hwf Hal Hw Hset.
  destruct (validate_key_cases k) as [Hk|Hk].
  - rewrite set_Ok in Hset by done. injection Hset as _ <-.
    pose proof (set_install_safe_new io k v s Hwf Hal) as Hs.
    destruct (_ <? _).
    + split; [by apply evict_lru_safe|]. by rewrite _evict_lru_config.
    + done.
  - unfold set, _validate_key in Hset. by rewrite Hk in Hset.
Qed.

Lemma set_other_safe io k k' v v' s b s1 :
  k' ≠ k → alien md5_hex (config s) k k' →
  io_write io k = WriteOk →
  safe md5_hex k v s →
  set md5_hex io k' v' s = Ok (b, s1) →
  safe md5_hex k v s1 ∧ config s1 = config s.
Proof.
  intros Hne Hal' Hw Hs Hset.
  destruct (validate_key_cases k') as [Hk|Hk].
  - rewrite set_Ok in Hset by done. injection Hset as _ <-.
    pose proof (set_install_safe_other io k k' v v' s Hne Hal' Hs) as Hs1.
    destruct (_ <? _).
    + split; [by apply evict_lru_safe|]. by rewrite _evict_lru_config.
    + done.
  - unfold set, _validate_key in Hset. by rewrite Hk in Hset.
Qed.

(** [get] keeps the invariant, and [get(k)] reads the safe value. *)
Lemma get_safe io k k' v s r s1 :
  alien md5_hex (config s) k k' →
  safe md5_hex k v s →
  get md5_hex io k' s = Ok (r, s1) →
  safe md5_hex k v s1 ∧ config s1 = config s
  ∧ (k' = k → r = v ∨ (r = VNone ∧ dict_get k (_cache s) = None
                        ∧ io_read_ok io k = false)).
Proof.
  intros Hal' (Hwf & Hd & Hal) Hget.
  destruct (validate_key_cases k') as [Hk|Hk];
    [|unfold get, _validate_key in Hget; by rewrite Hk in Hget].
  unfold get, _validate_key in Hget. rewrite Hk in Hget.
  destruct (dict_get k' (_cache s)) as [e|] eqn:E.
  - injection Hget as <- <-. split; [|split; [done|]].
    + split; [by apply dict_wf_set|]. split.
      * unfold durable in *. simpl.
        destruct (decide (k' = k)) as [->|Hne].
        -- rewrite dict_get_set_eq. rewrite E in Hd. done.
        -- by rewrite dict_get_set_ne.
      * simpl. rewrite dict_keys_set_in; [done|].
        apply dict_get_is_Some. by eauto.
    + intros ->. left. unfold durable in Hd. rewrite E in Hd. by destruct Hd.
  - destruct (is_not_None _) eqn:Hnn.
    + injection Hget as <- <-. split; [|split; [done|]].
      * split; [by apply dict_wf_set|]. split.
        -- destruct (decide (k' = k)) as [->|Hne].
           ++ unfold durable in *. simpl. rewrite dict_get_set_eq. simpl.
              rewrite E in Hd. split; [|done].
              destruct (load_holds_cases md5_hex io _ _ _ _ Hd) as [H|H]; [done|].
              by rewrite H in Hnn.
           ++ eapply durable_ext; [| | |exact Hd]; simpl; [|done|done].
              by apply dict_get_set_ne.
        -- simpl. apply Forall_forall. intros k2 Hk2.
           apply elem_of_dict_keys_set in Hk2 as [->|Hk2]; [done|].
           rewrite Forall_forall in Hal. by apply Hal.
      * intros ->. left. unfold durable in Hd. rewrite E in Hd.
        destruct (load_holds_cases md5_hex io _ _ _ _ Hd) as [H|H]; [done|].
        by rewrite H in Hnn.
    + injection Hget as <- <-. split; [done|]. split; [done|].
      intros ->. unfold durable in Hd. rewrite E in Hd.
      destruct (io_read_ok io k) eqn:Hr.
      * left. by apply load_holds.
      * destruct (load_holds_cases md5_hex io _ _ _ _ Hd) as [H|H]; auto.
Qed.

Lemma delete_other_safe io k k' v s b s1 :
  k' ≠ k → alien md5_hex (config s) k k' →
  safe md5_hex k v s →
  delete md5_hex io k' s = Ok (b, s1) →
  safe md5_hex k v s1 ∧ config s1 = config s.
Proof.
  intros Hne Hal' (Hwf & Hd & Hal) Hdel.
  destruct (validate_key_cases k') as [Hk|Hk];
    [|unfold delete, _validate_key in Hdel; by rewrite Hk in Hdel].
  unfold delete, _validate_key in Hdel. rewrite Hk in Hdel.
  remember (if dict_mem k' (_cache s)
            then with_cache (dict_del k' (_cache s)) s else s) as s0 eqn:Hs0.
  assert (_cache s0 = dict_del k' (_cache s)) as Hc0.
  { rewrite Hs0. destruct (dict_mem k' (_cache s)) eqn:E; [done|].
    apply dict_mem_false in E. by rewrite dict_del_notin. }
  assert (config s0 = config s ∧ fs s0 = fs s) as [Hcf Hfs]
    by (rewrite Hs0; by destruct (dict_mem k' (_cache s))).
  pose proof (remove_other md5_hex io (config s0) k k' (fs s0)) as Hrm.
  destruct (_remove_from_disk md5_hex io (config s0) k' (fs s0)) as [b' d'].
  injection Hdel as <- <-. clear Hs0. rewrite Hcf, Hfs in Hrm. simpl in Hrm.
  specialize (Hrm (Hal' Hne)).
  split; [|done]. split; [simpl; rewrite Hc0; by apply dict_wf_del|]. split.
  - eapply durable_ext; [| | |exact Hd]; simpl; [|done|done].
    rewrite Hc0. by apply dict_get_del_ne.
  - simpl. rewrite Hcf, Hc0. apply Forall_forall. intros k2 Hk2.
    apply elem_of_dict_keys_del in Hk2 as [Hk2 _].
    rewrite Forall_forall in Hal. by apply Hal.
Qed.

Lemma exists_state k' s b s1 :
  exists_ md5_hex k' s = Ok (b, s1) → s1 = s.
Proof.
  unfold exists_, _validate_key.
  destruct (validate_key k'); [|done].
  destruct (dict_mem _ _); by intros [= _ <-].
Qed.

(** *** [flush] *)

Lemma zip_keys_results {B} (f : string * CacheEntry → B)
    (snap : list (string * CacheEntry)) :
  zip (dict_keys snap) (f <$> snap) = (λ p, (p.1, f p)) <$> snap.
Proof.
  unfold dict_keys. induction snap as [|p snap IH]; simpl; [done|].
  f_equal. exact IH.
Qed.

Lemma flush_writes_results io cfg snap d :
  (flush_writes md5_hex io cfg snap d).1
  = (λ p, Returned (write_returns io p.1)) <$> snap.
Proof.
  revert d. induction snap as [|[k e] snap IH]; intros d; simpl; [done|].
  destruct (_save_to_disk md5_hex io cfg k (value e) d) as [b d1] eqn:E.
  specialize (IH d1).
  destruct (flush_writes md5_hex io cfg snap d1) as [rs d2]. simpl in *.
  f_equal; [|done]. f_equal.
  unfold _save_to_disk, write_returns in *.
  destruct (io_write io k); by injection E as <- _.
Qed.

Lemma flush_writes_cons io cfg k e snap d :
  (flush_writes md5_hex io cfg ((k, e) :: snap) d).2
  = (flush_writes md5_hex io cfg snap
       (_save_to_disk md5_hex io cfg k (value e) d).2).2.
Proof.
  simpl. destruct (_save_to_disk md5_hex io cfg k (value e) d) as [b d1].
  simpl. by destruct (flush_writes md5_hex io cfg snap d1).
Qed.

(** After the writes, the record of [k] is on disk if it was before or
    if [k] was among the entries written. *)
Lemma flush_writes_holds io cfg snap d k v :
  io_write io k = WriteOk →
  (∀ e, (k, e) ∈ snap → value e = v) →
  Forall (alien md5_hex cfg k) snap.*1 →
  holds cfg d k v ∨ k ∈ snap.*1 →
  holds cfg (flush_writes md5_hex io cfg snap d).2 k v.
Proof.
  intros Hw. revert d.
  induction snap as [|[k' e'] snap IH]; intros d Hv Hal Hor.
  - destruct Hor as [?|Hin]; [done|]. by apply elem_of_nil in Hin.
  - rewrite flush_writes_cons. apply Forall_cons in Hal as [Hal' Hal].
    apply IH; [|done|].
    + intros e He. apply Hv. apply elem_of_cons. by right.
    + destruct (decide (k' = k)) as [->|Hne].
      * left. rewrite <- (Hv e') by (apply elem_of_cons; by left).
        by apply save_ok.
      * destruct Hor as [Hh|Hin].
        -- left. eapply holds_record_other; [|exact Hh].
           apply save_other. by apply Hal'.
        -- right. simpl in Hin. apply elem_of_cons in Hin as [?|?]; by subst.
Qed.

Lemma flush_commit_cache krs c n :
  Forall (λ kr, not_exception kr.2 = true) krs →
  (flush_commit krs c n).2 = clear_dirty_all krs.*1 c.
Proof.
  revert c n. induction krs as [|[k r] krs IH]; intros c n Hr; [done|].
  apply Forall_cons in Hr as [Hr1 Hr]. simpl in Hr1. simpl.
  rewrite Hr1, andb_true_r. unfold dict_mem, clear_dirty.
  destruct (dict_get k c); by rewrite IH.
Qed.

Lemma clear_dirty_keys k c : dict_keys (clear_dirty k c) = dict_keys c.
Proof.
  unfold clear_dirty. destruct (dict_get k c) eqn:E; [|done].
  apply dict_keys_set_in. apply dict_get_is_Some. by eauto.
Qed.

Lemma clear_dirty_all_keys ks c : dict_keys (clear_dirty_all ks c) = dict_keys c.
Proof.
  revert c. induction ks as [|k ks IH]; intros c; [done|].
  unfold clear_dirty_all in *. simpl. by rewrite IH, clear_dirty_keys.
Qed.

Lemma dict_get_clear_dirty k k' c :
  dict_get k' (clear_dirty k c)
  = (if decide (k = k') then cleaned else id) <$> dict_get k' c.
Proof.
  unfold clear_dirty. destruct (decide (k = k')) as [->|Hne].
  - destruct (dict_get k' c) eqn:E; [|by rewrite E].
    by rewrite dict_get_set_eq.
  - destruct (dict_get k c).
    + rewrite dict_get_set_ne by done. by destruct (dict_get k' c).
    + by destruct (dict_get k' c).
Qed.

Lemma dict_get_clear_dirty_all ks k c :
  dict_get k (clear_dirty_all ks c)
  = (if bool_decide (k ∈ ks) then cleaned else id) <$> dict_get k c.
Proof.
  revert c. induction ks as [|k' ks IH]; intros c.
  - simpl. by destruct (dict_get k c).
  - unfold clear_dirty_all in *. simpl. rewrite IH, dict_get_clear_dirty.
    destruct (dict_get k c) as [e|]; [|by repeat case_match].
    simpl. f_equal.
    destruct (decide (k' = k)) as [->|Hne].
    + rewrite (bool_decide_eq_true_2 (k ∈ k :: ks)) by (apply elem_of_cons; by left).
      by case_bool_decide.
    + simpl. case_bool_decide as H1.
      * rewrite bool_decide_eq_true_2; [done|]. apply elem_of_cons. by right.
      * rewrite bool_decide_eq_false_2; [done|].
        intros [?|?]%elem_of_cons; by subst.
Qed.

(** The state [flush] leaves: every snapshotted key has its flag
    cleared, whatever its write returned. *)
Lemma flush_state io s :
  (flush md5_hex io s).2
  = mkFDB (config s)
          (clear_dirty_all (dict_keys (dirty_entries s)) (_cache s))
          (_running s)
          (flush_writes md5_hex io (config s) (dirty_entries s) (fs s)).2.
Proof.
  unfold flush, flush_with.
  destruct (dirty_entries s) as [|p snap] eqn:E; [by destruct s|].
  pose proof (flush_writes_results io (config s) (p :: snap) (fs s)) as Hres.
  destruct (flush_writes md5_hex io (config s) (p :: snap) (fs s)) as [rs d].
  change (rs = (λ p, Returned (write_returns io p.1)) <$> (p :: snap)) in Hres.
  subst rs. rewrite zip_keys_results.
  pose proof (flush_commit_cache
    ((λ q, (q.1, Returned (write_returns io q.1))) <$> (p :: snap))
    (_cache (id (with_fs d s))) 0) as Hc.
  destruct (flush_commit _ _ _) as [n c].
  assert (c = clear_dirty_all (dict_keys (p :: snap)) (_cache s)) as ->.
  { rewrite <- list_fmap_compose in Hc. apply Hc.
    apply Forall_fmap, Forall_forall. done. }
  done.
Qed.

Lemma flush_safe io s k v :
  io_write io k = WriteOk →
  safe md5_hex k v s →
  safe md5_hex k v (flush md5_hex io s).2
  ∧ config (flush md5_hex io s).2 = config s.
Proof.
  intros Hw (Hwf & Hd & Hal). rewrite flush_state. split; [|done].
  split; [|split]; simpl.
  - unfold dict_wf. by rewrite clear_dirty_all_keys.
  - assert (holds (config s)
              (flush_writes md5_hex io (config s) (dirty_entries s) (fs s)).2 k v)
      as Hh.
    { apply flush_writes_holds; [done| | |].
      - intros e [He _]%elem_of_dirty_entries.
        apply (dict_elem_get _ _ _ Hwf) in He. unfold durable in Hd.
        rewrite He in Hd. by destruct Hd.
      - apply Forall_forall. intros k' [p [-> Hp]]%list_elem_of_fmap.
        apply elem_of_dirty_entries in Hp as [Hp _].
        rewrite Forall_forall in Hal. apply Hal.
        apply list_elem_of_fmap. by exists p.
      - unfold durable in Hd. destruct (dict_get k (_cache s)) as [e|] eqn:E;
          [|by left].
        destruct Hd as [Hv Hcl]. destruct (dirty e) eqn:Hdirty; [|by auto].
        right. apply list_elem_of_fmap. exists (k, e). split; [done|].
        apply elem_of_dirty_entries. split; [|done].
        by apply dict_get_Some_elem. }
    apply durable_of_holds; simpl; [done|].
    intros e. rewrite dict_get_clear_dirty_all. unfold durable in Hd.
    destruct (dict_get k (_cache s)) as [e0|]; [|done].
    destruct Hd as [Hv _]. simpl. intros [= <-]. by case_bool_decide.
  - by rewrite clear_dirty_all_keys.
Qed.

Lemma flush_all_clean io s :
  dict_wf (_cache s) →
  Forall (λ p, dirty p.2 = false) (_cache (flush md5_hex io s).2).
Proof.
  intros Hwf. rewrite flush_state. simpl. apply Forall_forall. intros [k e] Hin.
  assert (dict_wf (clear_dirty_all (dict_keys (dirty_entries s)) (_cache s)))
    as Hwf' by (unfold dict_wf; by rewrite clear_dirty_all_keys).
  apply (dict_elem_get _ _ _ Hwf') in Hin.
  rewrite dict_get_clear_dirty_all in Hin.
  destruct (dict_get k (_cache s)) as [e0|] eqn:E; [|done].
  simpl in Hin. injection Hin as <-. case_bool_decide as Hk; [done|].
  simpl. destruct (dirty e0) eqn:Hd; [|done].
  exfalso. apply Hk. apply list_elem_of_fmap. exists (k, e0). split; [done|].
  apply elem_of_dirty_entries. split; [|done]. by apply dict_get_Some_elem.
Qed.

(** *** Traces *)

Lemma run_cons c tr s :
  run md5_hex (c :: tr) s = run md5_hex tr (step md5_hex s c).
Proof. done. Qed.

Lemma step_safe k v s c :
  quiet md5_hex (config s) k c →
  safe md5_hex k v s →
  safe md5_hex k v (step md5_hex s c) ∧ config (step md5_hex s c) = config s.
Proof.
  destruct c as [io o]. intros (Hkeep & Hw & Hal) Hs. simpl in *.
  unfold step; simpl. destruct o as [k' v'|k'|k'|k'| |]; simpl in *.
  - apply negb_true_iff, bool_decide_eq_false in Hkeep.
    destruct (set md5_hex io k' v' s) as [[b s1]|e] eqn:E; [|done].
    by eapply set_other_safe.
  - destruct (get md5_hex io k' s) as [[r s1]|e] eqn:E; [|done].
    destruct (get_safe io k k' v s r s1 Hal Hs E) as (? & ? & _). done.
  - apply negb_true_iff, bool_decide_eq_false in Hkeep.
    destruct (delete md5_hex io k' s) as [[b s1]|e] eqn:E; [|done].
    by eapply delete_other_safe.
  - destruct (exists_ md5_hex k' s) as [[b s1]|e] eqn:E; [|done].
    apply exists_state in E. by subst.
  - done.
  - by apply flush_safe.
Qed.

Lemma run_safe k v tr s :
  Forall (quiet md5_hex (config s) k) tr →
  safe md5_hex k v s →
  safe md5_hex k v (run md5_hex tr s) ∧ config (run md5_hex tr s) = config s.
Proof.
  revert s. induction tr as [|c tr IH]; intros s Htr Hs; [done|].
  apply Forall_cons in Htr as [Hc Htr]. rewrite run_cons.
  destruct (step_safe k v s c Hc Hs) as [Hs1 Hc1].
  rewrite <- Hc1 in Htr. destruct (IH _ Htr Hs1) as [? ?].
  split; [done|]. congruence.
Qed.

Lemma get_Ok io k s :
  validate_key k = Ok k → ∃ r s1, get md5_hex io k s = Ok (r, s1).
Proof.
  intros Hk. unfold get, _validate_key. rewrite Hk.
  destruct (dict_get k (_cache s)); [by eauto|].
  destruct (is_not_None _); by eauto.
Qed.

(** Every operation keeps the keys of the index unique. *)
Lemma step_wf s c :
  dict_wf (_cache s) → dict_wf (_cache (step md5_hex s c)).
Proof.
  intros Hwf. destruct c as [io o]. unfold step; simpl.
  destruct o as [k v|k|k|k| |].
  - destruct (validate_key_cases k) as [Hk|Hk].
    + rewrite set_Ok by done. destruct (_ <? _).
      * by apply _evict_lru_wf, set_install_wf.
      * by apply set_install_wf.
    + unfold set, _validate_key. by rewrite Hk.
  - unfold get, _validate_key. destruct (validate_key k) as [k0|]; [|done].
    destruct (dict_get k0 (_cache s)); [by apply dict_wf_set|].
    destruct (is_not_None _); [by apply dict_wf_set|done].
  - unfold delete, _validate_key. destruct (validate_key k) as [k0|]; [|done].
    destruct (dict_mem k0 (_cache s));
      destruct (_remove_from_disk _ _ _ _ _); simpl; [by apply dict_wf_del|done].
  - destruct (exists_ md5_hex k s) as [[b s1]|e] eqn:E; [|done].
    apply exists_state in E. by subst.
  - unfold flushdb. destruct (_clear_disk io _). apply NoDup_nil_2.
  - rewrite flush_state. simpl. unfold dict_wf.
    by rewrite clear_dirty_all_keys.
Qed.

Lemma run_wf tr s :
  dict_wf (_cache s) → dict_wf (_cache (run md5_hex tr s)).
Proof.
  revert s. induction tr as [|c tr IH]; intros s Hwf; [done|].
  rewrite run_cons. by apply IH, step_wf.
Qed.

End durability_facts.

(** ** Claims on the round trip and on shutdown *)

Section durability_claims.
Variable md5_hex : string → string.
Implicit Types (s : FDB) (io : IO).

(** C6 (as amended).  When the operations run one at a time (none starts
    while another is suspended in an [await]): for every valid key [k]
    and value [v], [set(k, v)] returns, and a later [get(k)] returns [v]
    after any operations that do not delete or overwrite [k] and are no
    [flushdb], provided the disk writes of [k] issued meanwhile (by
    eviction or flush) and the disk read of that [get] succeed and no
    other key in use is stored in the file of [k]. *)
Theorem set_then_get_returns_value io k v s tr io' :
  valid_key k →
  dict_wf (_cache s) →
  Forall (alien md5_hex (config s) k) (dict_keys (_cache s)) →
  io_write io k = WriteOk →
  Forall (quiet md5_hex (config s) k) tr →
  io_read_ok io' k = true →
  ∃ s1 s2,
    set md5_hex io k v s = Ok (true, s1)
    ∧ get md5_hex io' k (run md5_hex tr s1) = Ok (v, s2).
Proof.
  intros Hk Hwf Hal Hw Htr Hr. apply validate_key_valid in Hk.
  pose proof (set_Ok md5_hex io k v s Hk) as Hset.
  destruct (set_establishes_safe md5_hex io k v s _ _ Hwf Hal Hw Hset)
    as [Hs1 Hc1].
  eexists. rewrite <- Hc1 in Htr.
  destruct (run_safe md5_hex k v tr _ Htr Hs1) as [Hs2 Hc2].
  destruct (get_Ok md5_hex io' k (run md5_hex tr
              (if cache_size (config s) <? cache_len (set_install io k v s)
               then _evict_lru md5_hex io (set_install io k v s)
               else set_install io k v s)) Hk) as (r & s2 & Hget).
  exists s2. split; [exact Hset|].
  destruct (get_safe md5_hex io' k k v _ r s2 ltac:(by intros ?) Hs2 Hget)
    as (_ & _ & Hres).
  destruct (Hres eq_refl) as [->|(_ & _ & Hbad)]; [done|]. congruence.
Qed.

(** The part of C3 that holds, when the operations run one at a time
    (none starts while another is suspended in an [await]).  After
    [set(k, v)], any operations and [stop()], no cache entry is dirty,
    whatever the disk did.  If moreover the operations kept [k], the disk
    writes of [k] succeeded and no other key in use is stored in the file
    of [k], the record of [k] on disk holds [v], and a fresh engine on
    the same data directory whose disk read succeeds reads [v] back. *)
Theorem stop_persists_value io k v s tr io2 io3 :
  valid_key k →
  dict_wf (_cache s) →
  ∃ s1,
    set md5_hex io k v s = Ok (true, s1)
    ∧ Forall (λ p, dirty p.2 = false)
        (_cache (stop md5_hex io2 (run md5_hex tr s1)))
    ∧ (Forall (alien md5_hex (config s) k) (dict_keys (_cache s)) →
       io_write io k = WriteOk →
       Forall (quiet md5_hex (config s) k) tr →
       io_write io2 k = WriteOk →
       holds_record md5_hex (config s)
         (fs (stop md5_hex io2 (run md5_hex tr s1))) k v
       ∧ (io_read_ok io3 k = true →
          ∃ s3,
            get md5_hex io3 k
              (create_engine (config s)
                 (fs (stop md5_hex io2 (run md5_hex tr s1))))
            = Ok (v, s3))).
Proof.
  intros Hk Hwf. apply validate_key_valid in Hk.
  pose proof (set_Ok md5_hex io k v s Hk) as Hset.
  eexists. split; [exact Hset|].
  match goal with |- context [run md5_hex tr ?st] => set (s1 := st) in * end.
  assert (dict_wf (_cache s1)) as Hwf1.
  { subst s1. destruct (_ <? _).
    - by apply _evict_lru_wf, set_install_wf.
    - by apply set_install_wf. }
  set (s2 := run md5_hex tr s1).
  assert (dict_wf (_cache s2)) as Hwf2 by by apply run_wf.
  assert (Forall (λ p, dirty p.2 = false) (_cache (stop md5_hex io2 s2)))
    as Hclean.
  { apply (flush_all_clean md5_hex io2
             (mkFDB (config s2) (_cache s2) false (fs s2)) Hwf2). }
  split; [exact Hclean|].
  intros Hal Hw Htr Hw2.
  destruct (set_establishes_safe md5_hex io k v s _ _ Hwf Hal Hw Hset)
    as [Hs1 Hc1].
  fold s1 in Hs1, Hc1. rewrite <- Hc1 in Htr.
  destruct (run_safe md5_hex k v tr _ Htr Hs1) as [Hs2 Hc2]. fold s2 in Hs2, Hc2.
  assert (safe md5_hex k v (mkFDB (config s2) (_cache s2) false (fs s2)))
    as Hs2' by done.
  destruct (flush_safe md5_hex io2 _ k v Hw2 Hs2') as [(Hwf3 & Hd3 & _) Hc3].
  change (flush md5_hex io2 (mkFDB (config s2) (_cache s2) false (fs s2))).2
    with (stop md5_hex io2 s2) in *.
  assert (holds_record md5_hex (config s) (fs (stop md5_hex io2 s2)) k v) as Hh.
  { unfold durable in Hd3. rewrite Hc3 in Hd3. simpl in Hd3.
    rewrite Hc2, Hc1 in Hd3.
    destruct (dict_get k (_cache (stop md5_hex io2 s2))) as [e|] eqn:E; [|done].
    destruct Hd3 as [_ Hd3]. apply Hd3.
    apply dict_get_Some_elem in E. rewrite Forall_forall in Hclean.
    by apply (Hclean (k, e)). }
  split; [exact Hh|]. intros Hr.
  destruct (get_Ok md5_hex io3 k
              (create_engine (config s) (fs (stop md5_hex io2 s2))) Hk)
    as (r & s3 & Hget).
  exists s3. assert (r = v) as ->; [|exact Hget].
  unfold get, _validate_key in Hget. rewrite Hk in Hget. simpl in Hget.
  rewrite (load_holds md5_hex io3 _ _ k v Hh Hr) in Hget.
  destruct (is_not_None v); by injection Hget as <- _.
Qed.

End durability_claims.

(** Witness of C6: [set("b", 2)] evicts [b] at once, [get("b")] loads it. *)
Lemma set_then_get_returns_value_witness :
  ∃ s1 s2,
    set sample_hash (io_ok 3) "b" (VInt 2) hot_a = Ok (true, s1)
    ∧ get sample_hash (io_ok 5) "b"
        (run sample_hash [(io_ok 4, OpGet "a")] s1) = Ok (VInt 2, s2).
Proof.
  apply (set_then_get_returns_value sample_hash (io_ok 3) "b" (VInt 2) hot_a
           [(io_ok 4, OpGet "a")] (io_ok 5)).
  - unfold valid_key. simpl. lia.
  - unfold dict_wf. apply (bool_decide_unpack _). by vm_compute.
  - repeat constructor; by vm_compute.
  - reflexivity.
  - repeat constructor; by vm_compute.
  - reflexivity.
Defined.

(** C6 as stated fails: [set("b", 2)] returns after evicting [b] (its
    write succeeded), and the following [get("b")], whose disk read
    fails, answers [None].  It also fails, with every disk access
    succeeding, when [set("a", 2)] runs while a flush that snapshotted
    the value 1 of [a] is suspended: the flush clears the dirty flag of
    the new entry, [set("b", 3)] then evicts [a] without writing it, and
    [get("a")] loads the value 1. *)
Lemma set_then_get_counterexample :
  (∃ s1,
     set sample_hash (io_ok 3) "b" (VInt 2) hot_a = Ok (true, s1)
     ∧ dict_get "b" (_cache s1) = None
     ∧ holds_record sample_hash (config s1) (fs s1) "b" (VInt 2)
     ∧ get sample_hash (io_read_fails 4 ["b"]) "b" s1 = Ok (VNone, s1))
  ∧ (∃ s2,
       dict_get "a" (_cache (flush_with sample_hash overwrite_a (io_ok 2)
                                        one_dirty_a).2)
       = Some (mkEntry (VInt 2) 3 false 1)
       ∧ get sample_hash (io_ok 5) "a"
           (run sample_hash [(io_ok 4, OpSet "b" (VInt 3))]
                (flush_with sample_hash overwrite_a (io_ok 2) one_dirty_a).2)
         = Ok (VInt 1, s2)).
Proof.
  split.
  - eexists. split; [reflexivity|]. split; [reflexivity|].
    split; [by exists 3|]. reflexivity.
  - eexists. split; reflexivity.
Qed.

(** Witness of the shutdown theorem: [b] is evicted by its own [set],
    [a] is still dirty at [stop()]. *)
Lemma stop_persists_value_witness :
  ∃ s1,
    set sample_hash (io_ok 3) "b" (VInt 2) hot_a = Ok (true, s1)
    ∧ Forall (λ p, dirty p.2 = false)
        (_cache (stop sample_hash (io_ok 5)
                   (run sample_hash [(io_ok 4, OpGet "a")] s1)))
    ∧ holds_record sample_hash (config hot_a)
        (fs (stop sample_hash (io_ok 5)
               (run sample_hash [(io_ok 4, OpGet "a")] s1))) "b" (VInt 2)
    ∧ ∃ s3,
        get sample_hash (io_ok 6) "b"
          (create_engine (config hot_a)
             (fs (stop sample_hash (io_ok 5)
                    (run sample_hash [(io_ok 4, OpGet "a")] s1))))
        = Ok (VInt 2, s3).
Proof.
  destruct (stop_persists_value sample_hash (io_ok 3) "b" (VInt 2) hot_a
              [(io_ok 4, OpGet "a")] (io_ok 5) (io_ok 6))
    as (s1 & Hset & Hclean & Hrest).
  - unfold valid_key. simpl. lia.
  - unfold dict_wf. apply (bool_decide_unpack _). by vm_compute.
  - destruct Hrest as [Hh Hget].
    + repeat constructor; by vm_compute.
    + reflexivity.
    + repeat constructor; by vm_compute.
    + reflexivity.
    + exists s1. split; [exact Hset|]. split; [exact Hclean|].
      split; [exact Hh|]. apply Hget. reflexivity.
Defined.

(** ** Write failures and replaced entries *)

Section lost_writes.
Variable md5_hex : string → string.
Implicit Types (s : FDB) (io : IO).

(** The cache [flush] leaves does not depend on what the writes
    returned. *)
Lemma flush_cache_ignores_write_results io io' s :
  _cache (flush md5_hex io s).2 = _cache (flush md5_hex io' s).2.
Proof. by rewrite !flush_state. Qed.

(** The cache [_evict_lru] leaves does not depend on what the writes
    returned. *)
Lemma evict_lru_cache_ignores_write_results io io' s :
  _cache (_evict_lru md5_hex io s) = _cache (_evict_lru md5_hex io' s).
Proof.
  unfold _evict_lru. destruct (_ <=? _); [done|].
  by rewrite !evict_loop_cache.
Qed.

(** A dirty evictee whose write succeeds is on disk when it leaves the
    index. *)
Lemma evict_lru_persists_dirty_evictee io s k e :
  dict_wf (_cache s) →
  Forall (alien md5_hex (config s) k) (dict_keys (_cache s)) →
  cache_size (config s) < cache_len s →
  (k, e) ∈ evictees s → dirty e = true →
  io_write io k = WriteOk →
  dict_get k (_cache (_evict_lru md5_hex io s)) = None
  ∧ holds_record md5_hex (config s) (fs (_evict_lru md5_hex io s)) k (value e).
Proof.
  intros Hwf Hal Hlt Hin Hd Hw.
  assert (dict_get k (_cache s) = Some e) as Hget.
  { apply dict_elem_get; [done|]. by apply evictees_elem_of. }
  assert (safe md5_hex k (value e) s) as Hs.
  { split; [done|]. split; [|done]. unfold durable. rewrite Hget.
    split; [done|]. congruence. }
  destruct (evict_lru_safe md5_hex io s k (value e) Hw Hs) as (_ & Hdur & _).
  assert (dict_get k (_cache (_evict_lru md5_hex io s)) = None) as Hnone.
  { rewrite _evict_lru_cache by done. apply dict_get_without_keys_in.
    apply list_elem_of_fmap. by exists (k, e). }
  split; [done|]. unfold durable in Hdur. rewrite Hnone in Hdur.
  by rewrite _evict_lru_config in Hdur.
Qed.

End lost_writes.

(** C1 fails on the code.  First: the only write of a flush fails, yet
    the flush counts the entry and clears its dirty flag, with nothing on
    disk.  Second: while the flush awaits its write of the value 1,
    another coroutine sets the key to 2; the flush then clears the dirty
    flag of the new entry, whose value was never written. *)
Theorem flush_clears_dirty_of_unwritten_entries :
  flush sample_hash (io_write_fails 2 ["a"]) one_dirty_a
  = (1%nat,
     mkFDB (sample_config 1) [("a", mkEntry (VInt 1) 1 false 1)] true ∅)
  ∧ flush_with sample_hash overwrite_a (io_ok 2) one_dirty_a
    = (1%nat,
       mkFDB (sample_config 1) [("a", mkEntry (VInt 2) 3 false 1)] true
             {[ _get_file_path sample_hash (sample_config 1) "a"
                := Pickled "a" (VInt 1) 2 ]}).
Proof. split; reflexivity. Qed.

(** C2 fails on the code.  With [cache_size = 1] and a dirty entry [a],
    [set("b", 2)] evicts [a]; the write of [a] fails, and [a] is deleted
    from the index all the same: it is neither cached nor on disk. *)
Theorem eviction_drops_entry_whose_write_failed :
  evictees (set_install (io_write_fails 2 ["a"]) "b" (VInt 2) one_dirty_a)
  = [("a", mkEntry (VInt 1) 1 true 1)]
  ∧ set sample_hash (io_write_fails 2 ["a"]) "b" (VInt 2) one_dirty_a
    = Ok (true,
          mkFDB (sample_config 1) [("b", mkEntry (VInt 2) 2 true 1)] true ∅)
  ∧ get sample_hash (io_ok 3) "a" after_failed_eviction
    = Ok (VNone, after_failed_eviction).
Proof. repeat split; reflexivity. Qed.

(** C3 fails on the code.  [set("a", 1)], then [set("b", 2)] whose
    eviction write of [a] fails, then [stop()] with every write
    succeeding: no entry is dirty, [b] is on disk, but there is no record
    of [a], and a fresh engine on the same directory does not find it. *)
Theorem stop_after_failed_eviction_loses_key :
  let s := stop sample_hash (io_ok 3) after_failed_eviction in
  Forall (λ p, dirty p.2 = false) (_cache s)
  ∧ holds_record sample_hash (sample_config 1) (fs s) "b" (VInt 2)
  ∧ fs s !! _get_file_path sample_hash (sample_config 1) "a" = None
  ∧ get sample_hash (io_ok 4) "a" (create_engine (sample_config 1) (fs s))
    = Ok (VNone, create_engine (sample_config 1) (fs s)).
Proof.
  split; [repeat constructor|]. split; [by exists 3|].
  split; reflexivity.
Qed.

(** ** Deletion *)

Section delete_claims.
Variable md5_hex : string → string.
Implicit Types (s : FDB) (io : IO).

#[local] Abbreviation path := (_get_file_path md5_hex).










End delete_claims.



(** ** Further properties of the engine *)

(** *** [exists] *)

Section exists_facts.
Variable md5_hex : string → string.
Implicit Types (s : FDB) (io : IO) (d : gmap string dfile).

Lemma save_keeps_files io cfg k v d p :
  is_Some (d !! p) → is_Some ((_save_to_disk md5_hex io cfg k v d).2 !! p).
Proof.
  intros Hp. unfold _save_to_disk. destruct (io_write io k); simpl; [|done|].
  - destruct (decide (_get_file_path md5_hex cfg k = p)) as [->|Hne].
    + rewrite lookup_insert_eq. by eauto.
    + by rewrite lookup_insert_ne.
  - destruct (decide (_get_file_path md5_hex cfg k = p)) as [->|Hne].
    + rewrite lookup_insert_eq. by eauto.
    + by rewrite lookup_insert_ne.
Qed.

Lemma evict_loop_keeps_files io items s p :
  is_Some (fs s !! p) → is_Some (fs (evict_loop md5_hex io items s) !! p).
Proof.
  revert s. induction items as [|[k e] items IH]; intros s Hp; [done|].
  simpl. apply IH. destruct (dirty e); simpl; [|done].
  by apply save_keeps_files.
Qed.

Lemma evict_loop_writes_dirty io items s k e :
  (k, e) ∈ items → dirty e = true → io_write io k = WriteOk →
  is_Some (fs (evict_loop md5_hex io items s)
             !! _get_file_path md5_hex (config s) k).
Proof.
  intros Hin Hd Hw. revert s.
  induction items as [|[k' e'] items IH]; intros s.
  - by apply elem_of_nil in Hin.
  - apply elem_of_cons in Hin as [[= <- <-]|Hin].
    + simpl. apply evict_loop_keeps_files. rewrite Hd. simpl.
      destruct (save_ok md5_hex io (config s) k (value e) (fs s) Hw)
        as [_ [ts Hts]].
      rewrite Hts. by eauto.
    + simpl. specialize (IH Hin). 
      match goal with |- context [evict_loop _ _ _ ?st] =>
        specialize (IH st) end.
      destruct (dirty e'); exact IH.
Qed.

(** After [set(k, v)] whose disk write of [k], if eviction issues one,
    succeeds, [exists(k)] is [True]: the entry is cached, or eviction has
    written its file before deleting it. *)
Theorem set_then_exists io k v s :
  valid_key k →
  dict_wf (_cache s) →
  io_write io k = WriteOk →
  ∃ s1, set md5_hex io k v s = Ok (true, s1)
        ∧ exists_ md5_hex k s1 = Ok (true, s1).
Proof.
  intros Hk Hwf Hw. apply validate_key_valid in Hk.
  eexists. split; [by apply set_Ok|].
  unfold exists_, _validate_key. rewrite Hk.
  set (si := set_install io k v s).
  assert (dict_get k (_cache si) = Some (mkEntry v (io_now io) true 1)) as Hi
    by apply dict_get_set_eq.
  assert (dict_mem k (_cache si) = true) as Hmem
    by (unfold dict_mem; by rewrite Hi).
  destruct (cache_size (config s) <? cache_len si); [|by rewrite Hmem].
  unfold _evict_lru. destruct (cache_len si <=? cache_size (config si));
    [by rewrite Hmem|].
  destruct (dict_mem k (_cache (evict_loop md5_hex io (evictees si) si)))
    eqn:E; [done|].
  f_equal. f_equal. apply bool_decide_eq_true_2.
  rewrite evict_loop_config.
  unfold dict_mem in E. rewrite evict_loop_cache in E.
  destruct (decide (k ∈ (evictees si).*1)) as [Hin|Hin];
    [|by rewrite dict_get_without_keys_notin, Hi in E].
  apply list_elem_of_fmap in Hin as [[k' e] [Hk' Hin]]. simpl in Hk'. subst k'.
  assert (e = mkEntry v (io_now io) true 1) as ->.
  { apply evictees_elem_of in Hin.
    apply (dict_elem_get _ _ _ (set_install_wf io k v s Hwf)) in Hin.
    fold si in Hin. congruence. }
  by apply evict_loop_writes_dirty with (e := mkEntry v (io_now io) true 1).
Qed.


End exists_facts.

Lemma set_then_exists_witness :
  ∃ s1, set sample_hash (io_ok 3) "b" (VInt 2) hot_a = Ok (true, s1)
        ∧ dict_get "b" (_cache s1) = None
        ∧ exists_ sample_hash "b" s1 = Ok (true, s1).
Proof.
  destruct (set_then_exists sample_hash (io_ok 3) "b" (VInt 2) hot_a)
    as (s1 & Hset & Hex).
  - unfold valid_key. simpl. lia.
  - unfold dict_wf. apply (bool_decide_unpack _). by vm_compute.
  - reflexivity.
  - exists s1. split; [exact Hset|]. split; [|exact Hex].
    vm_compute in Hset. injection Hset as <-. reflexivity.
Defined.


(** *** [flush] *)

Lemma cleaned_clean e : dirty e = false → cleaned e = e.
Proof. destruct e as [v t d a]. simpl. by intros ->. Qed.

Lemma cleaned_idemp e : cleaned (cleaned e) = cleaned e.
Proof. done. Qed.

Lemma dict_set_fmap {A} k (a : A) (c : list (string * A)) :
  dict_wf c → k ∈ dict_keys c →
  dict_set k a c = (λ p, if decide (p.1 = k) then (k, a) else p) <$> c.
Proof.
  unfold dict_wf, dict_keys. induction c as [|[k' a'] c IH]; simpl.
  - intros _ H. by apply elem_of_nil in H.
  - intros Hnd Hin. apply NoDup_cons in Hnd as [Hk' Hnd].
    destruct (decide (k = k')) as [->|Hne].
    + rewrite decide_True by done. f_equal.
      clear IH Hin Hnd. induction c as [|[k2 a2] c IHc]; simpl; [done|].
      apply not_elem_of_cons in Hk' as [Hne Hk'].
      rewrite decide_False by done. f_equal. by apply IHc.
    + rewrite decide_False by done. f_equal.
      apply elem_of_cons in Hin as [?|Hin]; [done|]. by apply IH.
Qed.

Lemma clear_dirty_fmap k c :
  dict_wf c →
  clear_dirty k c
  = (λ p, if decide (p.1 = k) then (p.1, cleaned p.2) else p) <$> c.
Proof.
  intros Hwf. unfold clear_dirty. destruct (dict_get k c) as [e|] eqn:E.
  - rewrite dict_set_fmap; [|done|apply dict_get_is_Some; by eauto].
    apply list_fmap_ext. intros i [k' e'] Hi. simpl.
    destruct (decide (k' = k)) as [->|]; [|done].
    apply list_elem_of_lookup_2 in Hi. apply (dict_elem_get _ _ _ Hwf) in Hi.
    congruence.
  - rewrite <- (list_fmap_id c) at 1. apply list_fmap_ext.
    intros i [k' e'] Hi. simpl. destruct (decide (k' = k)) as [->|]; [|done].
    apply dict_get_None in E. exfalso. apply E.
    apply list_elem_of_fmap. exists (k, e'). split; [done|].
    by eapply list_elem_of_lookup_2.
Qed.

Lemma clear_dirty_all_fmap ks c :
  dict_wf c →
  clear_dirty_all ks c
  = (λ p, if bool_decide (p.1 ∈ ks) then (p.1, cleaned p.2) else p) <$> c.
Proof.
  revert c. induction ks as [|k ks IH]; intros c Hwf.
  - change (clear_dirty_all [] c) with c.
    rewrite <- (list_fmap_id c) at 1. apply list_fmap_ext.
    intros i p _. case_bool_decide as H; [by apply elem_of_nil in H|done].
  - change (clear_dirty_all (k :: ks) c)
      with (clear_dirty_all ks (clear_dirty k c)).
    rewrite IH by (unfold dict_wf; by rewrite clear_dirty_keys).
    rewrite clear_dirty_fmap by done. rewrite <- list_fmap_compose.
    apply list_fmap_ext. intros i [k' e'] _. simpl.
    destruct (decide (k' = k)) as [->|Hne]; simpl.
    + rewrite (bool_decide_eq_true_2 (k ∈ k :: ks)) by (apply elem_of_cons; by left).
      by case_bool_decide.
    + case_bool_decide as H1.
      * rewrite bool_decide_eq_true_2; [done|]. apply elem_of_cons. by right.
      * rewrite bool_decide_eq_false_2; [done|].
        intros [?|?]%elem_of_cons; by subst.
Qed.

Lemma flush_commit_count krs c n :
  Forall (λ kr, not_exception kr.2 = true) krs →
  Forall (λ kr, kr.1 ∈ dict_keys c) krs →
  (flush_commit krs c n).1 = (n + length krs)%nat.
Proof.
  revert c n. induction krs as [|[k r] krs IH]; intros c n Hr Hin; simpl.
  - lia.
  - apply Forall_cons in Hr as [Hr1 Hr]. apply Forall_cons in Hin as [Hin1 Hin].
    simpl in *. apply dict_mem_true in Hin1. rewrite Hin1, Hr1. simpl.
    rewrite IH; [lia|done|].
    eapply Forall_impl; [exact Hin|]. intros kr Hkr. simpl in *.
    by rewrite clear_dirty_keys.
Qed.

Section flush_facts.
Variable md5_hex : string → string.
Implicit Types (s : FDB) (io : IO).

Lemma flush_count io s :
  (flush md5_hex io s).1 = length (dirty_entries s).
Proof.
  unfold flush, flush_with.
  destruct (dirty_entries s) as [|p snap] eqn:E; [done|].
  pose proof (flush_writes_results md5_hex io (config s) (p :: snap) (fs s))
    as Hres.
  destruct (flush_writes md5_hex io (config s) (p :: snap) (fs s)) as [rs d].
  change (rs = (λ p, Returned (write_returns io p.1)) <$> (p :: snap)) in Hres.
  subst rs. rewrite zip_keys_results.
  pose proof (flush_commit_count
    ((λ q, (q.1, Returned (write_returns io q.1))) <$> (p :: snap))
    (_cache (id (with_fs d s))) 0) as Hc.
  destruct (flush_commit _ _ _) as [n c]. simpl fst.
  rewrite length_fmap in Hc. apply Hc.
  - apply Forall_fmap, Forall_forall. done.
  - apply Forall_fmap, Forall_forall. intros q Hq. simpl.
    rewrite <- E in Hq. apply elem_of_dirty_entries in Hq as [Hq _].
    apply list_elem_of_fmap. by exists q.
Qed.

(** [flush] returns the number of dirty entries and leaves every entry
    clean, with its value, timestamp and access count as they were, in
    the same order; this does not depend on what the disk writes
    returned. *)
Theorem flush_cleans_every_entry io s :
  dict_wf (_cache s) →
  (flush md5_hex io s).1 = length (dirty_entries s)
  ∧ _cache (flush md5_hex io s).2 = (λ p, (p.1, cleaned p.2)) <$> _cache s
  ∧ Forall (λ p, dirty p.2 = false) (_cache (flush md5_hex io s).2)
  ∧ config (flush md5_hex io s).2 = config s
  ∧ _running (flush md5_hex io s).2 = _running s.
Proof.
  intros Hwf. split; [apply flush_count|].
  assert (_cache (flush md5_hex io s).2
          = (λ p, (p.1, cleaned p.2)) <$> _cache s) as Hc.
  { rewrite flush_state. simpl. rewrite clear_dirty_all_fmap by done.
    apply list_fmap_ext. intros i [k e] Hi. simpl.
    case_bool_decide as Hin; [done|].
    rewrite cleaned_clean; [done|]. destruct (dirty e) eqn:Hd; [|done].
    exfalso. apply Hin. apply list_elem_of_fmap. exists (k, e). split; [done|].
    apply elem_of_dirty_entries. split; [|done].
    by eapply list_elem_of_lookup_2. }
  split; [done|]. split.
  - rewrite Hc. apply Forall_fmap, Forall_forall. done.
  - by rewrite flush_state.
Qed.

(** A second [flush] finds nothing to write: it returns 0 and changes
    neither the cache nor the disk, even if writes of the first one
    failed.  A failed write is therefore not retried. *)
Theorem flush_twice io io' s :
  dict_wf (_cache s) →
  flush md5_hex io' (flush md5_hex io s).2 = (0%nat, (flush md5_hex io s).2).
Proof.
  intros Hwf. pose proof (flush_all_clean md5_hex io s Hwf) as Hclean.
  unfold flush at 1, flush_with.
  assert (dirty_entries (flush md5_hex io s).2 = []) as ->; [|done].
  unfold dirty_entries.
  induction Hclean as [|p c Hp _ IH]; [done|].
  rewrite filter_cons_False; [exact IH|]. simpl. congruence.
Qed.

End flush_facts.

Lemma flush_cleans_every_entry_witness :
  (flush sample_hash (io_write_fails 2 ["a"]) one_dirty_a).1 = 1%nat.
Proof.
  destruct (flush_cleans_every_entry sample_hash (io_write_fails 2 ["a"])
              one_dirty_a) as [H _].
  - unfold dict_wf. apply (bool_decide_unpack _). by vm_compute.
  - exact H.
Defined.

Lemma flush_twice_witness :
  flush sample_hash (io_ok 3)
        (flush sample_hash (io_write_fails 2 ["a"]) one_dirty_a).2
  = (0%nat, (flush sample_hash (io_write_fails 2 ["a"]) one_dirty_a).2).
Proof.
  apply (flush_twice sample_hash).
  unfold dict_wf. apply (bool_decide_unpack _). by vm_compute.
Defined.

(** *** Which entries eviction spares *)

#[local] Instance ranks_below_dec p q : Decision (ranks_below p q).
Proof. unfold ranks_below. apply _. Defined.

Section eviction_order.
Variable md5_hex : string → string.
Implicit Types (s : FDB) (io : IO).

Lemma ranks_below_after_sorted p l1 l2 :
  StronglySorted rank_rel (l1 ++ p :: l2) →
  (length (filter (ranks_below p) (l1 ++ p :: l2)) ≤ length l1)%nat.
Proof.
  intros Hs. apply StronglySorted_app in Hs as (_ & _ & Hs).
  apply StronglySorted_cons in Hs as [Hp _].
  rewrite filter_app, length_app.
  assert (filter (ranks_below p) (p :: l2) = []) as ->.
  { rewrite filter_cons_False
      by (unfold ranks_below; rewrite (rank_rel_refl p : rank_le p p = true);
          done).
    induction Hp as [|q l Hq _ IH]; [done|].
    rewrite filter_cons_False; [exact IH|].
    unfold ranks_below. unfold rank_rel in Hq. congruence. }
  simpl. pose proof (length_filter (ranks_below p) l1). lia.
Qed.

(** An entry survives an eviction pass if at least [n // 10 + 1] entries
    of the index rank strictly below it, by access count and then by
    timestamp. *)
Theorem evict_lru_spares_higher_ranked io s p :
  dict_wf (_cache s) →
  p ∈ _cache s →
  (to_remove (length (_cache s))
    ≤ length (filter (ranks_below p) (_cache s)))%nat →
  p ∈ _cache (_evict_lru md5_hex io s).
Proof.
  intros Hwf Hp Hcount. unfold _evict_lru.
  destruct (_ <=? _); [done|]. rewrite evict_loop_cache.
  apply list_elem_of_filter. split; [|done].
  intros [p' [Hk Hin]]%list_elem_of_fmap.
  assert (p' = p) as ->.
  { pose proof (evictees_elem_of _ _ Hin) as Hin'.
    destruct p as [k e], p' as [k' e']. simpl in Hk. subst k'.
    apply (dict_elem_get _ _ _ Hwf) in Hp, Hin'. congruence. }
  unfold evictees in Hin.
  apply list_elem_of_split in Hin as (l1 & l2 & Htake).
  set (r := to_remove (length (_cache s))) in *.
  assert (sorted (_cache s) = l1 ++ p :: (l2 ++ drop r (sorted (_cache s))))
    as Heq.
  { rewrite <- (take_drop r (sorted (_cache s))) at 1.
    rewrite Htake, <- app_assoc. done. }
  pose proof (sorted_sorted (_cache s)) as Hs. rewrite Heq in Hs.
  apply ranks_below_after_sorted in Hs. rewrite <- Heq in Hs.
  rewrite (sorted_perm (_cache s)) in Hs.
  assert (length l1 < r)%nat; [|lia].
  apply (f_equal length) in Htake.
  rewrite length_take, length_app in Htake. simpl in Htake. lia.
Qed.

End eviction_order.

Lemma evict_lru_spares_higher_ranked_witness :
  ("a", mkEntry (VInt 1) 1 true 2)
  ∈ _cache (_evict_lru sample_hash (io_ok 3) hot_a_with_b).
Proof.
  apply (evict_lru_spares_higher_ranked sample_hash).
  - unfold dict_wf. apply (bool_decide_unpack _). by vm_compute.
  - vm_compute. constructor.
  - vm_compute. lia.
Defined.

(** *** [flushdb], [get] and the cache bound *)

Section facade_facts.
Variable md5_hex : string → string.
Implicit Types (s : FDB) (io : IO).


(** [get] never writes to disk and never changes the configuration.
    Every entry that was cached stays cached with the same value,
    timestamp and dirty flag; only the access count of the requested key
    grows by one.  The keys and their order stay as they are, except that
    a cache-miss [get] that loaded a value appends one clean entry for
    the requested key, holding the value it returns. *)
Theorem get_never_writes io k s r s1 :
  get md5_hex io k s = Ok (r, s1) →
  fs s1 = fs s
  ∧ config s1 = config s
  ∧ (∀ k' e, dict_get k' (_cache s) = Some e →
       dict_get k' (_cache s1)
       = Some (if decide (k' = k)
               then mkEntry (value e) (timestamp e) (dirty e)
                            (access_count e + 1)
               else e))
  ∧ (dict_keys (_cache s1) = dict_keys (_cache s)
     ∨ (dict_get k (_cache s) = None
        ∧ _cache s1 = _cache s ++ [(k, mkEntry r (io_now io) false 1)])).
Proof.
  unfold get, _validate_key. destruct (validate_key k) as [k0|] eqn:Hk; [|done].
  assert (k0 = k) as ->.
  { unfold validate_key in Hk. destruct (_ || _)%bool; congruence. }
  destruct (dict_get k (_cache s)) as [e|] eqn:E.
  - intros [= <- <-]. split; [done|]. split; [done|]. split.
    + simpl. intros k' e' Hget. destruct (decide (k' = k)) as [->|Hne].
      * rewrite dict_get_set_eq. congruence.
      * by rewrite dict_get_set_ne.
    + left. simpl. apply dict_keys_set_in. apply dict_get_is_Some. by eauto.
  - assert (∀ k' e, dict_get k' (_cache s) = Some e → k' ≠ k) as Hother
      by (intros k' e' Hget ->; congruence).
    destruct (is_not_None _) eqn:Hnn.
    + intros [= <- <-]. split; [done|]. split; [done|]. split.
      * simpl. intros k' e' Hget. pose proof (Hother _ _ Hget) as Hne.
        rewrite decide_False by done. by rewrite dict_get_set_ne.
      * right. split; [done|]. simpl. by apply dict_set_fresh.
    + intros [= <- <-]. split; [done|]. split; [done|]. split; [|by left].
      intros k' e' Hget. pose proof (Hother _ _ Hget) as Hne.
      by rewrite decide_False.
Qed.

Lemma step_bound s c :
  is_get c.2 = false →
  dict_wf (_cache s) → 0 ≤ cache_size (config s) →
  cache_len s ≤ cache_size (config s) →
  dict_wf (_cache (step md5_hex s c))
  ∧ config (step md5_hex s c) = config s
  ∧ cache_len (step md5_hex s c) ≤ cache_size (config s).
Proof.
  destruct c as [io o]. intros Hng Hwf Hcs Hle. unfold step; simpl.
  destruct o as [k v|k|k|k| |]; simpl in Hng; [|done| | | |].
  - destruct (set md5_hex io k v s) as [[b s']|e] eqn:E; [|done].
    by eapply set_bound.
  - unfold delete, _validate_key.
    destruct (validate_key_cases k) as [Hk|Hk]; rewrite Hk; [|done].
    remember (if dict_mem k (_cache s)
              then with_cache (dict_del k (_cache s)) s else s) as s0 eqn:Hs0.
    assert (_cache s0 = dict_del k (_cache s)) as Hc0.
    { rewrite Hs0. destruct (dict_mem k (_cache s)) eqn:E; [done|].
      apply dict_mem_false in E. by rewrite dict_del_notin. }
    assert (config s0 = config s) as Hcf
      by (rewrite Hs0; by destruct (dict_mem k (_cache s))).
    destruct (_remove_from_disk md5_hex io (config s0) k (fs s0)) as [b d].
    simpl. rewrite Hc0. split; [by apply dict_wf_del|]. split; [done|].
    unfold cache_len in *. simpl. rewrite Hc0.
    pose proof (length_dict_del_le k (_cache s)). lia.
  - destruct (exists_ md5_hex k s) as [[b s1]|e] eqn:E; [|done].
    apply exists_state in E. by subst.
  - unfold flushdb. destruct (_clear_disk io _) as [b d]. simpl.
    split; [apply NoDup_nil_2|]. split; [done|]. unfold cache_len. simpl. lia.
  - rewrite flush_state. simpl. split; [|split; [done|]].
    + unfold dict_wf. by rewrite clear_dirty_all_keys.
    + unfold cache_len in *. simpl.
      assert (length (clear_dirty_all (dict_keys (dirty_entries s)) (_cache s))
              = length (_cache s)) as ->; [|done].
      rewrite <- (length_fmap fst
                    (clear_dirty_all (dict_keys (dirty_entries s)) (_cache s))).
      fold (dict_keys (clear_dirty_all (dict_keys (dirty_entries s)) (_cache s))).
      rewrite clear_dirty_all_keys. apply length_fmap.
Qed.

(** On an engine created with a non-negative [cache_size], any sequence
    of [set], [delete], [exists], [flush] and [flushdb] calls leaves at
    most [cache_size] entries in the index: only a cache-miss [get] can
    push it over the limit. *)
Theorem cache_bound_without_gets cfg d tr :
  0 ≤ cache_size cfg →
  no_gets tr = true →
  cache_len (run md5_hex tr (create_engine cfg d)) ≤ cache_size cfg.
Proof.
  intros Hcs Htr.
  assert (∀ s, dict_wf (_cache s) → 0 ≤ cache_size (config s) →
               cache_len s ≤ cache_size (config s) →
               cache_len (run md5_hex tr s) ≤ cache_size (config s)) as Hgen.
  { induction tr as [|c tr IH]; intros s Hwf Hc Hle; [done|].
    simpl in Htr. apply andb_true_iff in Htr as [Hc1 Htr].
    apply negb_true_iff in Hc1.
    destruct (step_bound s c Hc1 Hwf Hc Hle) as (Hwf' & Hcf & Hle').
    change (run md5_hex (c :: tr) s) with (run md5_hex tr (step md5_hex s c)).
    rewrite <- Hcf in *. by apply IH. }
  apply (Hgen (create_engine cfg d)); [apply NoDup_nil_2 | done |].
  unfold cache_len. simpl. lia.
Qed.

End facade_facts.

Lemma get_never_writes_witness :
  fs (run sample_hash [(io_ok 5, OpGet "a")] a_clean_b_dirty)
  = fs a_clean_b_dirty
  ∧ dict_get "b" (_cache (run sample_hash [(io_ok 5, OpGet "a")] a_clean_b_dirty))
    = Some (mkEntry (VInt 2) 3 true 1)
  ∧ dict_get "a" (_cache (run sample_hash [(io_ok 5, OpGet "a")] a_clean_b_dirty))
    = Some (mkEntry (VInt 1) 1 false 2).
Proof.
  destruct (get_never_writes sample_hash (io_ok 5) "a" a_clean_b_dirty (VInt 1)
              (run sample_hash [(io_ok 5, OpGet "a")] a_clean_b_dirty))
    as (Hfs & _ & Hcache & _).
  - reflexivity.
  - split; [exact Hfs|]. split.
    + apply (Hcache "b" (mkEntry (VInt 2) 3 true 1)). reflexivity.
    + apply (Hcache "a" (mkEntry (VInt 1) 1 false 1)). reflexivity.
Defined.

Lemma cache_bound_without_gets_witness :
  cache_len
    (run sample_hash
       (sample_sets 3 ++ [(io_ok 3, OpFlush); (io_ok 4, OpDelete "a")])
       (create_engine (sample_config 2) ∅))
  ≤ 2.
Proof.
  apply (cache_bound_without_gets sample_hash (sample_config 2) ∅).
  - by vm_compute.
  - reflexivity.
Defined.

Lemma evict_lru_persists_dirty_evictee_witness :
  dict_get "b" (_cache (_evict_lru sample_hash (io_ok 3) hot_a_with_b)) = None
  ∧ holds_record sample_hash (config hot_a_with_b)
      (fs (_evict_lru sample_hash (io_ok 3) hot_a_with_b)) "b" (VInt 2).
Proof.
  apply (evict_lru_persists_dirty_evictee sample_hash (io_ok 3) hot_a_with_b
           "b" (mkEntry (VInt 2) 3 true 1)).
  - unfold dict_wf. apply (bool_decide_unpack _). by vm_compute.
  - repeat constructor; by vm_compute.
  - by vm_compute.
  - vm_compute. constructor.
  - reflexivity.
  - reflexivity.
Defined.

(** *** [keys] and [dbsize] *)

Lemma size_union_le (X Y : gset string) : (size (X ∪ Y) ≤ size X + size Y)%nat.
Proof.
  rewrite size_union_alt. apply Nat.add_le_mono_l, subseteq_size.
  intros x [Hx _]%elem_of_difference. exact Hx.
Qed.

Lemma size_list_to_set_le (l : list string) :
  (size (list_to_set l : gset string) ≤ length l)%nat.
Proof.
  induction l as [|x l IH].
  - rewrite list_to_set_nil, size_empty. done.
  - rewrite list_to_set_cons. etrans; [apply size_union_le|].
    rewrite size_singleton. simpl. lia.
Qed.

Lemma length_omap_le {A B} (f : A → option B) (l : list A) :
  (length (omap f l) ≤ length l)%nat.
Proof.
  induction l as [|x l IH]; [done|].
  change (omap f (x :: l))
    with (match f x with Some y => y :: omap f l | None => omap f l end).
  destruct (f x); simpl; lia.
Qed.

Section listing_facts.
Variable md5_hex : string → string.
Variable rglob_match : string → string → bool.
Variable fnmatch : string → string → bool.
Implicit Types (s : FDB) (io : IO) (d : gmap string dfile).

Lemma elem_of_scan_disk_keys readable cfg d k :
  k ∈ _scan_disk_keys rglob_match readable cfg d ↔
  ∃ p v ts, d !! p = Some (Pickled k v ts)
            ∧ rglob_match ("*" +:+ file_extension cfg) p = true
            ∧ readable p = true.
Proof.
  unfold _scan_disk_keys. rewrite list_elem_of_omap. split.
  - intros [[p f] [Hin Hf]]. simpl in Hf.
    apply elem_of_map_to_list in Hin.
    destruct (_ && _)%bool eqn:E; [|done].
    apply andb_true_iff in E as [E1 E2].
    destruct f as [k' v ts|]; [|done]. injection Hf as ->. by eauto 10.
  - intros (p & v & ts & Hp & E1 & E2). exists (p, Pickled k v ts).
    split; [by apply elem_of_map_to_list|]. simpl. by rewrite E1, E2.
Qed.

Lemma elem_of_keys_star readable s k :
  k ∈ keys rglob_match fnmatch readable "*" s ↔
  k ∈ dict_keys (_cache s)
  ∨ k ∈ _scan_disk_keys rglob_match readable (config s) (fs s).
Proof.
  unfold keys. simpl. rewrite elem_of_elements, elem_of_union.
  by rewrite !elem_of_list_to_set.
Qed.

Lemma elem_of_keys readable pattern s k :
  k ∈ keys rglob_match fnmatch readable pattern s →
  k ∈ keys rglob_match fnmatch readable "*" s.
Proof.
  unfold keys. destruct (String.eqb pattern "*"); simpl; [done|].
  by intros [_ ?]%list_elem_of_filter.
Qed.

(** [keys] lists no key twice, also when the key is both cached and on
    disk, and a pattern only removes keys from the listing of ["*"];
    [dbsize] is at most the number of cached entries plus the number of
    files. *)
Theorem keys_lists_each_key_once readable pattern s :
  NoDup (keys rglob_match fnmatch readable pattern s)
  ∧ (∀ k, k ∈ keys rglob_match fnmatch readable pattern s →
          k ∈ dict_keys (_cache s)
          ∨ k ∈ _scan_disk_keys rglob_match readable (config s) (fs s))
  ∧ (dbsize rglob_match fnmatch readable s
     ≤ length (_cache s) + size (fs s))%nat.
Proof.
  split; [|split].
  - unfold keys. destruct (String.eqb pattern "*").
    + apply NoDup_elements.
    + apply NoDup_filter, NoDup_elements.
  - intros k Hk. by apply elem_of_keys, elem_of_keys_star in Hk.
  - unfold dbsize, keys. simpl.
    etrans; [apply size_union_le|]. apply Nat.add_le_mono.
    + etrans; [apply size_list_to_set_le|]. unfold dict_keys.
      by rewrite length_fmap.
    + etrans; [apply size_list_to_set_le|]. unfold _scan_disk_keys.
      etrans; [apply length_omap_le|]. by rewrite length_map_to_list.
Qed.

End listing_facts.

Section listing_claims.
Variable md5_hex : string → string.
Variable rglob_match : string → string → bool.
Variable fnmatch : string → string → bool.
Implicit Types (s : FDB) (io : IO) (d : gmap string dfile).

Lemma save_store_ok io cfg k v d :
  store_ok md5_hex cfg d →
  store_ok md5_hex cfg (_save_to_disk md5_hex io cfg k v d).2.
Proof.
  intros Hok p k' v' ts. unfold _save_to_disk.
  destruct (io_write io k); simpl; [|by apply Hok|].
  - destruct (decide (_get_file_path md5_hex cfg k = p)) as [<-|Hne].
    + rewrite lookup_insert_eq. by intros [= <- _ _].
    + rewrite lookup_insert_ne by done. by apply Hok.
  - destruct (decide (_get_file_path md5_hex cfg k = p)) as [<-|Hne].
    + by rewrite lookup_insert_eq.
    + rewrite lookup_insert_ne by done. by apply Hok.
Qed.

Lemma evict_loop_store_ok io items s :
  store_ok md5_hex (config s) (fs s) →
  store_ok md5_hex (config s) (fs (evict_loop md5_hex io items s)).
Proof.
  revert s. induction items as [|[k e] items IH]; intros s Hok; [done|].
  simpl.
  match goal with |- context [evict_loop _ _ _ ?st] =>
    specialize (IH st) end.
  destruct (dirty e); simpl in *; apply IH; [|done].
  by apply save_store_ok.
Qed.

Lemma flush_writes_store_ok io cfg snap d :
  store_ok md5_hex cfg d →
  store_ok md5_hex cfg (flush_writes md5_hex io cfg snap d).2.
Proof.
  revert d. induction snap as [|[k e] snap IH]; intros d Hok; [done|].
  rewrite flush_writes_cons. by apply IH, save_store_ok.
Qed.

Lemma delete_result io k s :
  valid_key k →
  ∃ b d, delete md5_hex io k s
         = Ok (b, mkFDB (config s) (dict_del k (_cache s)) (_running s) d)
         ∧ (∀ p f, d !! p = Some f → fs s !! p = Some f)
         ∧ (b = true ↔ d !! _get_file_path md5_hex (config s) k = None).
Proof.
  intros Hk. apply validate_key_valid in Hk.
  unfold delete, _validate_key. rewrite Hk.
  remember (if dict_mem k (_cache s)
            then with_cache (dict_del k (_cache s)) s else s) as s0 eqn:Hs0.
  assert (s0 = mkFDB (config s) (dict_del k (_cache s)) (_running s) (fs s))
    as ->.
  { rewrite Hs0. destruct (dict_mem k (_cache s)) eqn:E; [done|].
    apply dict_mem_false in E. rewrite dict_del_notin by done. by destruct s. }
  clear Hs0. unfold _remove_from_disk. simpl.
  destruct (fs s !! _get_file_path md5_hex (config s) k) as [f|] eqn:Hf.
  - destruct (io_unlink_ok io k).
    + eexists _, _. split; [done|]. split.
      * intros p f' Hp. by apply lookup_delete_Some in Hp as [_ Hp].
      * split; [intros _; apply lookup_delete_eq|done].
    + eexists _, _. split; [done|]. split; [done|]. rewrite Hf. done.
  - eexists _, _. split; [done|]. split; [done|]. done.
Qed.

Lemma step_config s c : config (step md5_hex s c) = config s.
Proof.
  destruct c as [io o]. unfold step; simpl. destruct o as [k v|k|k|k| |].
  - destruct (validate_key_cases k) as [Hk|Hk].
    + rewrite set_Ok by done. destruct (_ <? _); [|done].
      by rewrite _evict_lru_config.
    + unfold set, _validate_key. by rewrite Hk.
  - unfold get, _validate_key. destruct (validate_key k); [|done].
    destruct (dict_get _ _); [done|]. by destruct (is_not_None _).
  - unfold delete, _validate_key. destruct (validate_key k) as [k0|]; [|done].
    destruct (dict_mem k0 (_cache s));
      destruct (_remove_from_disk _ _ _ _ _); done.
  - destruct (exists_ md5_hex k s) as [[b s1]|e] eqn:E; [|done].
    apply exists_state in E. by subst.
  - unfold flushdb. by destruct (_clear_disk io _).
  - by rewrite flush_state.
Qed.

Lemma step_store_ok s c :
  store_ok md5_hex (config s) (fs s) →
  store_ok md5_hex (config s) (fs (step md5_hex s c)).
Proof.
  intros Hok. destruct c as [io o]. unfold step; simpl.
  destruct o as [k v|k|k|k| |].
  - destruct (validate_key_cases k) as [Hk|Hk].
    + rewrite set_Ok by done. destruct (_ <? _); [|done].
      unfold _evict_lru. destruct (_ <=? _); [done|].
      by apply (evict_loop_store_ok io _ (set_install io k v s)).
    + unfold set, _validate_key. by rewrite Hk.
  - unfold get, _validate_key. destruct (validate_key k); [|done].
    destruct (dict_get _ _); [done|]. by destruct (is_not_None _).
  - unfold delete, _validate_key. destruct (validate_key k) as [k0|]; [|done].
    assert (∀ s0, config s0 = config s → fs s0 = fs s →
              store_ok md5_hex (config s)
                (_remove_from_disk md5_hex io (config s0) k0 (fs s0)).2) as Hrm.
    { intros s0 -> ->. unfold _remove_from_disk.
      destruct (fs s !! _); [|done]. destruct (io_unlink_ok io k0); [|done].
      simpl. intros p k' v' ts Hp.
      apply lookup_delete_Some in Hp as [_ Hp]. by eapply Hok. }
    destruct (dict_mem k0 (_cache s)).
    + specialize (Hrm (with_cache (dict_del k0 (_cache s)) s) eq_refl eq_refl).
      by destruct (_remove_from_disk _ _ _ _ _).
    + specialize (Hrm s eq_refl eq_refl).
      by destruct (_remove_from_disk _ _ _ _ _).
  - destruct (exists_ md5_hex k s) as [[b s1]|e] eqn:E; [|done].
    apply exists_state in E. by subst.
  - unfold flushdb, _clear_disk. destruct (io_clear io); simpl.
    + intros p k' v' ts Hp. by rewrite lookup_empty in Hp.
    + intros p k' v' ts Hp. apply map_lookup_filter_Some in Hp as [Hp _].
      by eapply Hok.
  - rewrite flush_state. simpl. by apply flush_writes_store_ok.
Qed.

(** Whatever the engine does, every record of the data directory stays
    in the file its key hashes to, if that was so at the start (for
    instance in an empty directory). *)
Theorem run_keeps_store_ok tr s :
  store_ok md5_hex (config s) (fs s) →
  store_ok md5_hex (config s) (fs (run md5_hex tr s)).
Proof.
  revert s. induction tr as [|c tr IH]; intros s Hok; [done|].
  change (run md5_hex (c :: tr) s) with (run md5_hex tr (step md5_hex s c)).
  rewrite <- (step_config s c). apply IH. rewrite step_config.
  by apply step_store_ok.
Qed.

(** After [set(k, v)] the key is listed by [keys("*")], provided the
    disk writes of [k] that eviction may issue succeed, the file of [k]
    is one the scan visits and can read, and no other cached key is
    stored in that file. *)
Theorem set_then_listed io k v s readable :
  valid_key k →
  dict_wf (_cache s) →
  Forall (alien md5_hex (config s) k) (dict_keys (_cache s)) →
  io_write io k = WriteOk →
  rglob_match ("*" +:+ file_extension (config s))
              (_get_file_path md5_hex (config s) k) = true →
  readable (_get_file_path md5_hex (config s) k) = true →
  ∃ s1, set md5_hex io k v s = Ok (true, s1)
        ∧ k ∈ keys rglob_match fnmatch readable "*" s1
        ∧ (1 ≤ dbsize rglob_match fnmatch readable s1)%nat.
Proof.
  intros Hk Hwf Hal Hw Hm Hr. apply validate_key_valid in Hk.
  pose proof (set_Ok md5_hex io k v s Hk) as Hset.
  destruct (set_establishes_safe md5_hex io k v s _ _ Hwf Hal Hw Hset)
    as [(_ & Hd & _) Hc].
  eexists. split; [exact Hset|].
  match type of Hd with durable _ _ _ ?st => set (s1 := st) in * end.
  assert (k ∈ keys rglob_match fnmatch readable "*" s1) as Hin.
  { apply elem_of_keys_star. unfold durable in Hd.
    destruct (dict_get k (_cache s1)) as [e|] eqn:E.
    - left. apply dict_get_is_Some. by eauto.
    - right. apply elem_of_scan_disk_keys. destruct Hd as [ts Hts].
      exists (_get_file_path md5_hex (config s1) k), v, ts.
      rewrite Hc. rewrite Hc in Hts. done. }
  split; [done|]. unfold dbsize.
  destruct (keys rglob_match fnmatch readable "*" s1);
    [by apply elem_of_nil in Hin | simpl; lia].
Qed.

(** After a successful [delete(k)] no pattern lists [k], in a data
    directory where every record is in the file its key hashes to. *)
Theorem delete_then_not_listed io k s :
  valid_key k →
  store_ok md5_hex (config s) (fs s) →
  ∃ b s1, delete md5_hex io k s = Ok (b, s1)
          ∧ (b = true → ∀ readable pattern,
               k ∉ keys rglob_match fnmatch readable pattern s1).
Proof.
  intros Hk Hok. destruct (delete_result io k s Hk) as (b & d & Hdel & Hsub & Hb).
  eexists b, _. split; [exact Hdel|]. intros Htrue readable pattern Hin.
  apply elem_of_keys, elem_of_keys_star in Hin. simpl in Hin.
  destruct Hin as [Hin|Hin].
  - apply elem_of_dict_keys_del in Hin as [_ Hne]. done.
  - apply elem_of_scan_disk_keys in Hin as (p & v & ts & Hp & _ & _).
    pose proof (Hok _ _ _ _ (Hsub _ _ Hp)) as ->.
    apply Hb in Htrue. congruence.
Qed.

(** After a [flushdb] that removed the directory, [keys] lists nothing
    for any pattern and [dbsize] is 0. *)
Theorem flushdb_then_keys io s readable pattern :
  io_clear io = ClearOk →
  keys rglob_match fnmatch readable pattern (flushdb io s).2 = []
  ∧ dbsize rglob_match fnmatch readable (flushdb io s).2 = 0%nat.
Proof.
  intros Hc.
  assert (∀ pat, keys rglob_match fnmatch readable pat (flushdb io s).2
                 = []) as H.
  { intros pat. unfold flushdb, _clear_disk, keys, _scan_disk_keys.
    rewrite Hc. simpl. rewrite map_to_list_empty. simpl.
    rewrite (left_id_L ∅ (∪)), elements_empty. by destruct (String.eqb _ _). }
  split; [apply H|]. unfold dbsize. by rewrite H.
Qed.

End listing_claims.

(** Witness: the directory holds the record of [a]; [set("b", 2)]
    evicts [a], the flush writes [b]; both records are in their files. *)
Lemma run_keeps_store_ok_witness :
  store_ok sample_hash (sample_config 1)
    (fs (run sample_hash
           [(io_ok 3, OpSet "b" (VInt 2)); (io_ok 4, OpFlush)] flushed_a))
  ∧ holds_record sample_hash (sample_config 1)
      (fs (run sample_hash
             [(io_ok 3, OpSet "b" (VInt 2)); (io_ok 4, OpFlush)] flushed_a))
      "a" (VInt 1)
  ∧ holds_record sample_hash (sample_config 1)
      (fs (run sample_hash
             [(io_ok 3, OpSet "b" (VInt 2)); (io_ok 4, OpFlush)] flushed_a))
      "b" (VInt 2).
Proof.
  split; [|split; [by exists 2 | by exists 4]].
  apply (run_keeps_store_ok sample_hash
           [(io_ok 3, OpSet "b" (VInt 2)); (io_ok 4, OpFlush)] flushed_a).
  intros p k v ts Hp.
  assert (fs flushed_a
          = {[ _get_file_path sample_hash (sample_config 1) "a"
               := Pickled "a" (VInt 1) 2 ]}) as Hfs by reflexivity.
  rewrite Hfs in Hp. apply lookup_singleton_Some in Hp as [<- [= <- _ _]].
  reflexivity.
Defined.

Lemma set_then_listed_witness :
  ∃ s1, set sample_hash (io_ok 3) "b" (VInt 2) hot_a = Ok (true, s1)
        ∧ "b" ∈ keys sample_rglob sample_fnmatch (λ _, true) "*" s1
        ∧ (1 ≤ dbsize sample_rglob sample_fnmatch (λ _, true) s1)%nat.
Proof.
  apply (set_then_listed sample_hash sample_rglob sample_fnmatch (io_ok 3) "b"
           (VInt 2) hot_a (λ _, true)).
  - unfold valid_key. simpl. lia.
  - unfold dict_wf. apply (bool_decide_unpack _). by vm_compute.
  - repeat constructor; by vm_compute.
  - reflexivity.
  - reflexivity.
  - reflexivity.
Defined.

Lemma delete_then_not_listed_witness :
  ∃ b s1, delete sample_hash (io_ok 3) "a" flushed_a = Ok (b, s1)
          ∧ (b = true → ∀ readable pattern,
               "a" ∉ keys sample_rglob sample_fnmatch readable
                          pattern s1).
Proof.
  apply (delete_then_not_listed sample_hash sample_rglob sample_fnmatch
           (io_ok 3) "a" flushed_a).
  - unfold valid_key. simpl. lia.
  - intros p k v ts Hp.
    assert (fs flushed_a
            = {[ _get_file_path sample_hash (sample_config 1) "a"
                 := Pickled "a" (VInt 1) 2 ]}) as Hfs by reflexivity.
    rewrite Hfs in Hp. apply lookup_singleton_Some in Hp as [<- [= <- _ _]].
    reflexivity.
Defined.

Lemma flushdb_then_keys_witness :
  dbsize sample_rglob sample_fnmatch (λ _, true)
         (flushdb (io_ok 3) flushed_a).2 = 0%nat.
Proof.
  destruct (flushdb_then_keys sample_rglob sample_fnmatch
              (io_ok 3) flushed_a (λ _, true) "*") as [_ H].
  - reflexivity.
  - exact H.
Defined.

(** ** The line protocol *)

Section protocol_facts.
Variable md5_hex : string → string.
Variable rglob_match : string → string → bool.
Variable fnmatch : string → string → bool.
Variable split_ws : string → list string.
Variable upper : string → string.
Variable json_loads : string → loads_outcome.
Variable json_dumps : pyvalue → string.
Variable str_value : pyvalue → string.
Variable exn_text : error → string.
Implicit Types (s : FDB) (io : IO) (data : string).

#[local] Abbreviation parse :=
  (parse_command md5_hex rglob_match fnmatch split_ws upper json_loads
                 json_dumps str_value exn_text).

(** A [SET] without a value and a [GET], [DEL] or [EXISTS] that does not
    have exactly one argument are answered as unknown commands, and the
    engine is left as it is. *)
Theorem parse_command_wrong_arity io readable data s c rest :
  split_ws data = c :: rest →
  (upper c = "SET" ∧ (length rest < 2)%nat)
  ∨ ((upper c = "GET" ∨ upper c = "DEL" ∨ upper c = "EXISTS")
     ∧ length rest ≠ 1%nat) →
  parse io readable data s = (unknown_command (upper c), s).
Proof.
  intros Hsplit Hcmd. unfold parse_command. rewrite Hsplit.
  cbv zeta. simpl length.
  destruct Hcmd as [[-> Hlen] | [Hc Hlen]].
  - assert ((3 <=? S (length rest))%nat = false) as ->
      by (apply Nat.leb_gt; lia).
    reflexivity.
  - assert ((S (length rest) =? 2)%nat = false) as ->
      by (apply Nat.eqb_neq; lia).
    destruct Hc as [-> | [-> | ->]]; reflexivity.
Qed.

(** Only [SET], [GET], [DEL] and [FLUSHDB] can change the engine: every
    other line, blank or unknown ones included, leaves it as it is. *)
Theorem parse_command_read_only io readable data s :
  (∀ c rest, split_ws data = c :: rest →
     upper c ≠ "SET" ∧ upper c ≠ "GET" ∧ upper c ≠ "DEL"
     ∧ upper c ≠ "FLUSHDB") →
  (parse_command md5_hex rglob_match fnmatch split_ws upper json_loads
     json_dumps str_value exn_text io readable data s).2 = s.
Proof.
  intros Hcmd. unfold parse_command.
  destruct (split_ws data) as [|c rest] eqn:Hsplit; [done|].
  destruct (Hcmd c rest eq_refl) as (H1 & H2 & H3 & H4).
  apply String.eqb_neq in H1, H2, H3, H4. cbv zeta.
  rewrite H1, H2, H3, H4. simpl.
  destruct (_ && _)%bool.
  - destruct (exists_ md5_hex _ s) as [[b s1]|e] eqn:E; [|done].
    apply exists_state in E. by subst.
  - repeat (destruct (String.eqb _ _); [done|]). done.
Qed.

(** A well-formed [SET], [GET], [DEL] or [EXISTS] whose key is longer
    than 256 characters is answered with an [ERROR:] line and the engine
    is left as it is.  The text is that of the validation exception,
    except for a [SET] whose value makes [json.loads] raise an exception
    other than [JSONDecodeError]: this one comes first, and its text is
    answered. *)
Theorem parse_command_invalid_key io readable data s c k rest :
  split_ws data = c :: k :: rest →
  (256 < String.length k)%nat →
  (upper c = "SET" ∧ rest ≠ [])
  ∨ ((upper c = "GET" ∨ upper c = "DEL" ∨ upper c = "EXISTS") ∧ rest = []) →
  ∃ msg,
    parse_command md5_hex rglob_match fnmatch split_ws upper json_loads
      json_dumps str_value exn_text io readable data s
    = ("ERROR: " +:+ msg, s)
    ∧ (∀ m, upper c = "SET" →
            json_loads (String.concat " " rest) = LoadsRaises m → msg = m)
    ∧ ((upper c = "SET" →
        ∀ m, json_loads (String.concat " " rest) ≠ LoadsRaises m) →
       msg = exn_text InvalidKey).
Proof.
  intros Hsplit Hlen Hcmd.
  assert (validate_key k = Raise InvalidKey) as Hk
    by (apply validate_key_invalid; by right).
  unfold parse_command. rewrite Hsplit. cbv zeta. simpl length. simpl nth.
  destruct Hcmd as [[Hc Hrest] | [Hc ->]].
  - rewrite Hc. destruct rest as [|t ts]; [done|].
    change (String.eqb "SET" "SET"
            && (3 <=? S (S (S (length ts))))%nat)%bool with true.
    cbv iota. change (drop 2 (c :: k :: t :: ts)) with (t :: ts).
    destruct (json_loads (String.concat " " (t :: ts))) as [v| |m] eqn:E.
    + exists (exn_text InvalidKey). unfold set, _validate_key. rewrite Hk.
      split; [done|]. split; [intros m _ [=]|done].
    + exists (exn_text InvalidKey). unfold set, _validate_key. rewrite Hk.
      split; [done|]. split; [intros m _ [=]|done].
    + exists m. split; [done|]. split; [by intros m' _ [= ->]|].
      intros Hno. by destruct (Hno eq_refl m).
  - exists (exn_text InvalidKey). split; [|split].
    + destruct Hc as [-> | [-> | ->]]; simpl;
        unfold get, delete, exists_, _validate_key; by rewrite Hk.
    + intros m Hset. destruct Hc as [H | [H | H]]; rewrite H in Hset; done.
    + done.
Qed.

(** [SET k words...] followed by [GET k], when the operations run one at
    a time (none starts while another is suspended in an [await]) and
    [json.loads] raises nothing but [JSONDecodeError] on the words joined
    by single spaces: the first answer is [OK]; the second is the text
    form of the value that was stored (the parsed JSON, or the joined
    words), with [NULL] for a JSON [null].  This holds across operations
    that keep [k], provided the disk writes of [k] and the disk read of
    the [GET] succeed and no other key in use is stored in the file of
    [k]. *)
Theorem parse_command_set_then_get io readable data s c k t ts
    tr io' readable' data' c' :
  split_ws data = c :: k :: t :: ts →
  upper c = "SET" →
  (∀ msg, json_loads (String.concat " " (t :: ts)) ≠ LoadsRaises msg) →
  split_ws data' = [c'; k] →
  upper c' = "GET" →
  valid_key k →
  dict_wf (_cache s) →
  Forall (alien md5_hex (config s) k) (dict_keys (_cache s)) →
  io_write io k = WriteOk →
  Forall (quiet md5_hex (config s) k) tr →
  io_read_ok io' k = true →
  ∃ s1 s2,
    parse io readable data s = ("OK", s1)
    ∧ parse io' readable' data' (run md5_hex tr s1)
      = (get_response json_dumps str_value
           (set_value json_loads (String.concat " " (t :: ts))), s2).
Proof.
  intros Hsplit Hc Hjson Hsplit' Hc' Hk Hwf Hal Hw Htr Hr.
  apply validate_key_valid in Hk.
  set (v := set_value json_loads (String.concat " " (t :: ts))).
  pose proof (set_Ok md5_hex io k v s Hk) as Hset.
  destruct (set_establishes_safe md5_hex io k v s _ _ Hwf Hal Hw Hset)
    as [Hs1 Hc1].
  rewrite <- Hc1 in Htr.
  destruct (run_safe md5_hex k v tr _ Htr Hs1) as [Hs2 Hc2].
  match type of Hs2 with safe _ _ _ ?st => set (s2 := st) in * end.
  destruct (get_Ok md5_hex io' k s2 Hk) as (r & s3 & Hget).
  destruct (get_safe md5_hex io' k k v _ r s3 ltac:(by intros ?) Hs2 Hget)
    as (_ & _ & Hres).
  assert (r = v) as ->.
  { destruct (Hres eq_refl) as [->|(_ & _ & Hbad)]; [done|]. congruence. }
  eexists _, s3. split.
  - unfold parse_command. rewrite Hsplit. cbv zeta. rewrite Hc.
    change (String.eqb "SET" "SET"
            && (3 <=? length (c :: k :: t :: ts))%nat)%bool with true.
    cbv iota. change (nth 1 (c :: k :: t :: ts) "") with k.
    change (drop 2 (c :: k :: t :: ts)) with (t :: ts).
    fold v.
    destruct (json_loads (String.concat " " (t :: ts))) as [v0| |m] eqn:E;
      [| |by destruct (Hjson m)]; rewrite Hset; reflexivity.
  - unfold parse_command. rewrite Hsplit'. cbv zeta. rewrite Hc'.
    change (String.eqb "GET" "SET" && (3 <=? length [c'; k])%nat)%bool
      with false.
    change (String.eqb "GET" "GET" && (length [c'; k] =? 2)%nat)%bool
      with true.
    cbv iota. change (nth 1 [c'; k] "") with k.
    fold s2. rewrite Hget. reflexivity.
Qed.

End protocol_facts.

Lemma parse_command_wrong_arity_witness :
  sample_parse (io_ok 1) (λ _, true) "SET k" one_dirty_a
  = ("ERROR: Unknown command 'SET'", one_dirty_a).
Proof.
  apply (parse_command_wrong_arity sample_hash sample_rglob sample_fnmatch
           sample_split sample_upper sample_loads sample_dumps sample_str
           sample_exn_text (io_ok 1) (λ _, true) "SET k" one_dirty_a
           "SET" ["k"]).
  - reflexivity.
  - left. split; [reflexivity | simpl; lia].
Defined.

Lemma parse_command_read_only_witness :
  (sample_parse (io_ok 1) (λ _, true) "INFO" one_dirty_a).2 = one_dirty_a.
Proof.
  apply (parse_command_read_only sample_hash sample_rglob sample_fnmatch
           sample_split sample_upper sample_loads sample_dumps sample_str
           sample_exn_text (io_ok 1) (λ _, true) "INFO" one_dirty_a).
  intros c rest H. vm_compute in H. injection H as <- <-.
  unfold sample_upper. repeat split; discriminate.
Defined.

Lemma parse_command_invalid_key_witness :
  ∃ msg,
    sample_parse (io_ok 1) (λ _, true) ("SET " +:+ long_key +:+ " deep")
                 one_dirty_a
    = ("ERROR: " +:+ msg, one_dirty_a)
    ∧ msg = "maximum recursion depth exceeded"%string.
Proof.
  destruct (parse_command_invalid_key sample_hash sample_rglob sample_fnmatch
              sample_split sample_upper sample_loads sample_dumps sample_str
              sample_exn_text (io_ok 1) (λ _, true)
              ("SET " +:+ long_key +:+ " deep") one_dirty_a
              "SET" long_key ["deep"]) as (msg & Hparse & Hraise & _).
  - by vm_compute.
  - vm_compute. lia.
  - left. split; [reflexivity | discriminate].
  - exists msg. split; [exact Hparse|].
    apply Hraise; reflexivity.
Defined.

Lemma parse_command_set_then_get_witness :
  ∃ s1 s2,
    sample_parse (io_ok 3) (λ _, true) "SET b hello  world" hot_a = ("OK", s1)
    ∧ sample_parse (io_ok 4) (λ _, true) "GET b" (run sample_hash [] s1)
      = ("hello world", s2).
Proof.
  apply (parse_command_set_then_get sample_hash sample_rglob sample_fnmatch
           sample_split sample_upper sample_loads sample_dumps sample_str
           sample_exn_text (io_ok 3) (λ _, true) "SET b hello  world" hot_a
           "SET" "b" "hello" ["world"] [] (io_ok 4) (λ _, true) "GET b" "GET").
  - reflexivity.
  - reflexivity.
  - intros msg. by vm_compute.
  - reflexivity.
  - reflexivity.
  - unfold valid_key. simpl. lia.
  - unfold dict_wf. apply (bool_decide_unpack _). by vm_compute.
  - repeat constructor; by vm_compute.
  - reflexivity.
  - constructor.
  - reflexivity.
Defined.

(** ** Reading from disk *)

Section load_facts.
Variable md5_hex : string → string.
Implicit Types (s : FDB) (io : IO).

(** When the file of an uncached key cannot be read, because the read
    fails or the file holds no record, [get] answers [None] and leaves
    the engine as it is, while [exists] answers [True]. *)
Theorem get_unreadable_file io k s f :
  valid_key k →
  dict_get k (_cache s) = None →
  fs s !! _get_file_path md5_hex (config s) k = Some f →
  f = Garbage ∨ io_read_ok io k = false →
  get md5_hex io k s = Ok (VNone, s)
  ∧ exists_ md5_hex k s = Ok (true, s).
Proof.
  intros Hk Hc Hf Hbad. apply validate_key_valid in Hk.
  unfold get, exists_, _validate_key, _load_from_disk, dict_mem.
  rewrite Hk, Hc, Hf. split.
  - destruct Hbad as [-> | ->]; [by destruct (io_read_ok io k)|done].
  - rewrite bool_decide_eq_true_2; by eauto.
Qed.

(** [get] does not compare the key stored in the record with the key it
    was asked for: whatever record the file of [k] holds, its value is
    returned and cached under [k] as a clean entry. *)
Theorem get_does_not_check_stored_key io k s k0 v ts :
  valid_key k →
  dict_get k (_cache s) = None →
  fs s !! _get_file_path md5_hex (config s) k = Some (Pickled k0 v ts) →
  io_read_ok io k = true →
  v ≠ VNone →
  get md5_hex io k s
  = Ok (v, with_cache (_cache s ++ [(k, mkEntry v (io_now io) false 1)]) s).
Proof.
  intros Hk Hc Hf Hr Hv. apply validate_key_valid in Hk.
  unfold get, _validate_key, _load_from_disk. rewrite Hk, Hc, Hf, Hr.
  destruct v; try done; simpl; by rewrite dict_set_fresh.
Qed.

End load_facts.

Lemma get_unreadable_file_witness :
  get sample_hash (io_ok 1) "a" (create_engine (sample_config 1) garbage_file)
  = Ok (VNone, create_engine (sample_config 1) garbage_file)
  ∧ exists_ sample_hash "a" (create_engine (sample_config 1) garbage_file)
    = Ok (true, create_engine (sample_config 1) garbage_file).
Proof.
  apply (get_unreadable_file sample_hash (io_ok 1) "a"
           (create_engine (sample_config 1) garbage_file) Garbage).
  - unfold valid_key. simpl. lia.
  - reflexivity.
  - reflexivity.
  - by left.
Defined.

Lemma get_does_not_check_stored_key_witness :
  get sample_hash (io_ok 1) "a" (create_engine (sample_config 1) foreign_record)
  = Ok (VInt 7,
        with_cache [("a", mkEntry (VInt 7) 1 false 1)]
                   (create_engine (sample_config 1) foreign_record)).
Proof.
  apply (get_does_not_check_stored_key sample_hash (io_ok 1) "a"
           (create_engine (sample_config 1) foreign_record) "z" (VInt 7) 0).
  - unfold valid_key. simpl. lia.
  - reflexivity.
  - reflexivity.
  - reflexivity.
  - discriminate.
Defined.
